(** * Semantic memory server: pattern identity, retention tiers,
      confidence decay, search post-processing and consolidation

    A shallow embedding of [src/index.js].  Every definition below is named
    after the JavaScript function or constant it is translated from.

    Modelling conventions.
    - A JavaScript number is a rational ([Q]); rounding to binary64, the
      infinities and the signed zero are not represented.  [NaN] is: it is
      how arithmetic on a non-number shows up.  The one place of the program
      where an infinity can arise is the power of the confidence decay; the
      module [Binary64] embeds that function a second time, with the
      infinities.
    - An instant is the number of milliseconds since the epoch ([Z]).  The
      ISO-8601 string that [toISOString] writes for an instant is kept as the
      value [VDate ms]; [new Date(s)] on it gives [ms] back.
    - [Math.pow], the embedding generator and the ranking of the vector index
      are not part of the source: they are parameters of the development.
    - The program runs in a state-and-exception monad over the key-value
      store, the clock and the log of the calls made to the outside.  The
      clock stands still during a call; the store is reachable, the index
      exists, and a key does not expire while the program runs. *)

From Stdlib Require Import ZArith QArith Qround String Ascii List Lia Lqa DecimalString.
From stdpp Require Import gmap strings list fin_maps.

Open Scope Z_scope.
Open Scope string_scope.

(** ** JavaScript values found in pattern metadata *)

Module Js.

(** The JSON values of the tool schema (numbers, strings, arrays of strings),
    the ISO time stamps the server writes, and [NaN].  By convention [VStr s]
    and the members of [VList l] are strings that spell neither a number nor
    a date: a time stamp is a [VDate], a number is a [VNum]. *)
Inductive Value : Type :=
| VNull
| VBool (b : bool)
| VNum (q : Q)
| VNaN
| VStr (s : string)
| VDate (ms : Z)
| VList (l : list string).

(** A property read [o.f] gives [None] for [undefined]. *)
Definition truthy (v : Value) : bool :=
  match v with
  | VNull => false
  | VBool b => b
  | VNum q => negb (Qeq_bool q 0)
  | VNaN => false
  | VStr s => negb (String.eqb s "")
  | VDate _ => true
  | VList _ => true
  end.

Definition truthy_opt (o : option Value) : bool :=
  match o with
  | Some v => truthy v
  | None => false
  end.

(** [o || d] *)
Definition or_else (o : option Value) (d : Value) : Value :=
  match o with
  | Some v => if truthy v then v else d
  | None => d
  end.

(** [ToNumber]; [None] is [NaN]. *)
Definition ToNumber (v : Value) : option Q :=
  match v with
  | VNull => Some 0%Q
  | VBool b => Some (if b then 1%Q else 0%Q)
  | VNum q => Some q
  | VNaN => None
  | VStr s => if String.eqb s "" then Some 0%Q else None
  | VDate _ => None
  | VList l => if String.eqb (String.concat "," l) "" then Some 0%Q else None
  end.

Definition ToNumber_opt (o : option Value) : option Q :=
  match o with
  | Some v => ToNumber v
  | None => None
  end.

Definition of_number (n : option Q) : Value :=
  match n with
  | Some q => VNum q
  | None => VNaN
  end.

(** [a >= b]: two strings are compared as strings, anything else as numbers,
    and a comparison with [NaN] is false. *)
Definition ge (a b : Value) : bool :=
  match a, b with
  | VStr x, VStr y => String.leb y x
  | _, _ =>
      match ToNumber a, ToNumber b with
      | Some x, Some y => Qle_bool y x
      | _, _ => false
      end
  end.

(** The time value of [new Date(v)]; [None] is an invalid date.  A number is
    truncated to whole milliseconds. *)
Definition time_value (v : Value) : option Z :=
  match v with
  | VDate ms => Some ms
  | VNum q => Some (Z.quot (Qnum q) (Z.pos (Qden q)))
  | VNull => Some 0
  | VBool b => Some (if b then 1 else 0)
  | VNaN | VStr _ | VList _ => None
  end.

Definition Math_min (a b : option Q) : option Q :=
  match a, b with
  | Some x, Some y => Some (if Qle_bool x y then x else y)
  | _, _ => None
  end.

Definition Math_max (a b : option Q) : option Q :=
  match a, b with
  | Some x, Some y => Some (if Qle_bool x y then y else x)
  | _, _ => None
  end.

Definition mul (a b : option Q) : option Q :=
  match a, b with
  | Some x, Some y => Some (x * y)%Q
  | _, _ => None
  end.

(** What [JSON.parse (JSON.stringify v)] gives back: [NaN] is written as
    [null], every other value of the model is read back as it was. *)
Definition JSON_roundtrip (v : Value) : Value :=
  match v with
  | VNaN => VNull
  | _ => v
  end.

(** 32-bit integers of the bitwise operators. *)
Definition ToInt32 (z : Z) : Z := (z + 2 ^ 31) mod 2 ^ 32 - 2 ^ 31.

Definition shl (a n : Z) : Z := ToInt32 (Z.shiftl (ToInt32 a) n).

Definition band (a b : Z) : Z := ToInt32 (Z.land (ToInt32 a) (ToInt32 b)).

(** [str.charCodeAt(i)] for each [i]: the code units of the string.  A
    character of the model is one code unit, below 256. *)
Definition code_units (s : string) : list Z :=
  map (fun c => Z.of_nat (nat_of_ascii c)) (list_ascii_of_string s).

(** The decimal numeral of a non-negative integer, as a template literal
    prints it. *)
Definition decimal (z : Z) : string :=
  NilZero.string_of_uint (N.to_uint (Z.to_N z)).

End Js.

Import Js.


(** ** The key-value store, the clock and the calls to the outside *)

Definition Embedding : Type := list Q.

(** A pattern's metadata object. *)
Abbreviation Metadata := (gmap string Value).

(** The hash stored under a pattern key: the five fields [hSet] writes.  The
    [metadata] field holds the JSON text of the object; it is kept here as the
    object that [JSON.parse] reads back from it. *)
Module Hash.
Record t : Type := make {
  category : string;
  memory_type : string;
  content : string;
  metadata : Metadata;
  embedding : Embedding;
}.
End Hash.

(** A key of the store: its hash and the expiration set on it, if any. *)
Record Entry : Type := mkEntry {
  fields : Hash.t;
  expiration : option Z;
}.

(** The calls that leave the process. *)
Inductive Call : Type :=
| embeddings_create (input : string)
| HSET (key : string)
| EXPIRE (key : string) (seconds : Z)
| FT_SEARCH (query : string).

Definition is_write (c : Call) : bool :=
  match c with
  | HSET _ | EXPIRE _ _ => true
  | embeddings_create _ | FT_SEARCH _ => false
  end.

(** [calls] lists the calls made so far, the most recent first. *)
Record World : Type := mkWorld {
  store : gmap string Entry;
  clock : Z;
  calls : list Call;
}.

Inductive Exn : Type :=
| EmbeddingError
| TypeError (message : string)
| Error (message : string).

Inductive Result (A : Type) : Type :=
| Ok (a : A)
| Throw (e : Exn).
Arguments Ok {A} a.
Arguments Throw {A} e.

(** An [async] function: it reads and changes the world and returns or throws. *)
Definition M (A : Type) : Type := World -> Result A * World.

Definition ret {A} (a : A) : M A := fun w => (Ok a, w).

Definition throw {A} (e : Exn) : M A := fun w => (Throw e, w).

Definition bind {A B} (m : M A) (f : A -> M B) : M B :=
  fun w =>
    match m w with
    | (Ok a, w') => f a w'
    | (Throw e, w') => (Throw e, w')
    end.

Notation "x <- m ;; k" := (bind m (fun x => k))
  (at level 100, m at next level, right associativity).
Notation "m ;;; k" := (bind m (fun _ => k))
  (at level 100, right associativity).

(** [for (const x of l) body], threading the variables the body assigns. *)
Fixpoint for_of {A S} (l : list A) (body : A -> S -> M S) (s : S) : M S :=
  match l with
  | [] => ret s
  | x :: l' => s' <- body x s ;; for_of l' body s'
  end.

(** [new Date()] *)
Definition new_Date : M Z := fun w => (Ok (clock w), w).

Definition record (c : Call) : M unit :=
  fun w => (Ok tt, mkWorld (store w) (clock w) (c :: calls w)).

(** [hSet key fields]: the five fields replace those of an existing hash; an
    expiration already set on the key stays. *)
Definition hSet (key : string) (h : Hash.t) : M unit :=
  record (HSET key) ;;;
  fun w =>
    let old := store w !! key ≫= expiration in
    (Ok tt, mkWorld (<[key := mkEntry h old]> (store w)) (clock w) (calls w)).

(** [expire key seconds] *)
Definition expire (key : string) (seconds : Z) : M unit :=
  record (EXPIRE key seconds) ;;;
  fun w =>
    (Ok tt, mkWorld (alter (fun e => mkEntry (fields e) (Some seconds)) key (store w))
                    (clock w) (calls w)).

(** ** Memory configuration *)

Inductive Ttl : Type :=
| ttl_undefined
| ttl_null
| ttl_seconds (n : Z).

Record MemoryType : Type := mkMemoryType {
  name : string;
  description : string;
  ttl : Ttl;
}.

Definition SEMANTIC : MemoryType :=
  mkMemoryType "semantic" "Facts & knowledge (persist indefinitely)" ttl_null.

Definition EPISODIC : MemoryType :=
  mkMemoryType "episodic"
    "Interaction histories (expire after 90 days unless promoted)"
    (ttl_seconds (90 * 24 * 60 * 60)).

Definition PROCEDURAL : MemoryType :=
  mkMemoryType "procedural" "Behavioral rules (evolve via feedback)" ttl_null.

(** [Object.values(MEMORY_TYPES)] *)
Definition MEMORY_TYPES : list MemoryType := [SEMANTIC; EPISODIC; PROCEDURAL].

Definition EPISODIC_TO_SEMANTIC : Q := 5.
Definition SEMANTIC_TO_LONGTERM : Q := 20.
Definition MIN_CONFIDENCE : Q := 95 # 100.

(** [if (ttl)] *)
Definition ttl_truthy (t : Ttl) : bool :=
  match t with
  | ttl_seconds n => negb (n =? 0)%Z
  | _ => false
  end.

(** ** The string hash *)

Definition hashCode (str : string) : Z :=
  fold_left
    (fun hash char =>
       let hash := shl hash 5 - hash + char in
       band hash hash)
    (code_units str) 0.

(** [Math.abs(hashCode(content)) % 100000000] *)
Definition digest (content : string) : Z :=
  Z.rem (Z.abs (hashCode content)) 100000000.

(** ** Results of the tools *)

(** What [storePattern] returns. *)
Module Stored.
Record t : Type := make {
  pattern_id : string;
  memory_type : string;
  ttl_seconds : Ttl;
  status : string;
}.
End Stored.

(** One element of [results] in what [searchPatterns] returns. *)
Module Pattern.
Record t : Type := make {
  pattern_id : string;
  category : string;
  memory_type : string;
  content : string;
  metadata : Metadata;
}.
End Pattern.

Module SearchResult.
Record t : Type := make {
  results : list Pattern.t;
  query : string;
  filters : option string * option string;
  count : nat;
}.
End SearchResult.

(** An element of a [candidates] array; [confidence] is [None] when the
    property is [undefined], [ready_for_export] is set in the second phase
    only. *)
Module Candidate.
Record t : Type := make {
  pattern_id : string;
  category : string;
  content : string;
  evidence_count : Value;
  confidence : option Value;
  ready_for_export : option bool;
}.
End Candidate.

Module Summary.
Record t : Type := make {
  episodic_candidates : nat;
  episodic_promoted : nat;
  canonical_candidates : nat;
  note : string;
}.
End Summary.

(** The two phases of the [results] object that [consolidateMemories] fills. *)
Module Phase.
Record t : Type := make {
  candidates : list Candidate.t;
  counter : nat;   (* [promoted] in the first phase, [graduated] in the second *)
}.
Definition push (c : Candidate.t) (p : t) : t := make (candidates p ++ [c])%list (counter p).
Definition incr (p : t) : t := make (candidates p) (S (counter p)).
End Phase.

Module Report.
Record t : Type := make {
  dry_run : bool;
  promotion_type : string;
  episodic_to_semantic : Phase.t;
  semantic_to_canonical : Phase.t;
  summary : Summary.t;
}.
End Report.

(** ** Requests and responses *)

(** The arguments of the pattern tools.  A property is an [option] where the
    handler or the callee checks for its absence. *)
Module StoreArgs.
Record t : Type := make {
  category : string;
  memory_type : option string;
  content : string;
  metadata : option Metadata;
}.
End StoreArgs.

Module SearchArgs.
Record t : Type := make {
  query : string;
  k : option nat;
  category : option string;
  memory_type : option string;
}.
End SearchArgs.

Module ConsolidateArgs.
Record t : Type := make {
  dry_run : option Value;
  promotion_type : option string;
  min_evidence : option Value;
}.
End ConsolidateArgs.

(** A request to the handler.  [set_reminder], [check_reminders] and
    [health_check] are not embedded; [unknown_tool n] is a name that no case
    of the [switch] matches. *)
Inductive Request : Type :=
| store_pattern (args : StoreArgs.t)
| search_patterns (args : SearchArgs.t)
| consolidate_memories (args : ConsolidateArgs.t)
| unknown_tool (name : string).

Inductive ToolResult : Type :=
| of_store (r : Stored.t)
| of_search (r : SearchResult.t)
| of_consolidate (r : Report.t).

Inductive Response : Type :=
| content (result : ToolResult)
| isError (error : Exn).

(** ** The server *)

(** What the server calls but does not define. *)
Class Outside : Type := {
  (** [Math.pow] *)
  Math_pow : Q -> Q -> Q;
  (** the answer of the embedding service to [embeddings.create] for an
      input; [None] when the request fails *)
  embeddings : string -> option Embedding;
  (** the vector index: the hashes that pass the tag filters, ordered by
      their score against the query vector *)
  by_score : Embedding -> list (string * Hash.t) -> list (string * Hash.t);
}.

Section Server.

Context {outside : Outside}.

Definition generateEmbedding (text : string) : M Embedding :=
  record (embeddings_create text) ;;;
  match embeddings text with
  | Some embedding => ret embedding
  | None => throw EmbeddingError
  end.

(** *** Confidence decay *)

Definition calculateConfidenceDecay
    (confidence : Value) (lastValidated : option Value) : M Value :=
  if negb (truthy_opt lastValidated) then ret confidence
  else
    now <- new_Date ;;
    let lastValidatedDate := lastValidated ≫= time_value in
    let monthsSinceLastUse :=
      (fun t => inject_Z (now - t) / inject_Z (1000 * 60 * 60 * 24 * 30))%Q
        <$> lastValidatedDate in
    let decayedConfidence :=
      mul (ToNumber confidence) (Math_pow (95 # 100) <$> monthsSinceLastUse) in
    ret (of_number (Math_max (Some 0%Q) (Math_min (Some 1%Q) decayedConfidence))).

(** *** store_pattern *)

Definition patternId (category memoryType content : string) : string :=
  "pattern:" ++ memoryType ++ ":" ++ category ++ ":" ++ decimal (digest content).

(** [metadata] is [None] when the argument is [undefined]: the spread of
    [undefined] adds nothing, the read of [metadata.source] throws. *)
Definition storePattern
    (category memoryType content : string) (metadata : option Metadata)
    : M Stored.t :=
  embedding <- generateEmbedding content ;;
  let patternId := patternId category memoryType content in
  created_at <- new_Date ;;
  last_validated <- new_Date ;;
  match metadata with
  | None => throw (TypeError "Cannot read properties of undefined (reading 'source')")
  | Some metadata =>
      let enrichedMetadata : Metadata :=
        <["validation_contexts" := or_else (metadata !! "validation_contexts") (VList [])]>
        (<["source" := or_else (metadata !! "source") (VStr "unknown")]>
        (<["last_validated" := VDate last_validated]>
        (<["created_at" := VDate created_at]> metadata))) in
      let memoryConfig := find (fun m => String.eqb (name m) memoryType) MEMORY_TYPES in
      let ttl := match memoryConfig with Some m => ttl m | None => ttl_undefined end in
      hSet patternId
        (Hash.make category memoryType content
           (JSON_roundtrip <$> enrichedMetadata) embedding) ;;;
      (match ttl with
       | ttl_seconds n => if ttl_truthy ttl then expire patternId n else ret tt
       | _ => ret tt
       end) ;;;
      ret (Stored.make patternId memoryType ttl "stored")
  end.

(** *** search_patterns *)

(** [if (category)], [if (memoryType)] *)
Definition given (o : option string) : list string :=
  match o with
  | Some s => if String.eqb s "" then [] else [s]
  | None => []
  end.

(** The tag constraints of the query, as pairs of a field and a tag. *)
Definition tags (category memoryType : option string) : list (string * string) :=
  map (pair "category") (given category) ++ map (pair "memory_type") (given memoryType).

Definition searchQuery (k : nat) (category memoryType : option string) : string :=
  let filters := map (fun t => "@" ++ t.1 ++ ":{" ++ t.2 ++ "}") (tags category memoryType) in
  let baseQuery :=
    if (0 <? length filters)%nat then "(" ++ String.concat " " filters ++ ")" else "*" in
  baseQuery ++ "=>[KNN " ++ decimal (Z.of_nat k) ++ " @embedding $vec AS score]".

Definition tag_field (field : string) (h : Hash.t) : option string :=
  if String.eqb field "category" then Some (Hash.category h)
  else if String.eqb field "memory_type" then Some (Hash.memory_type h)
  else None.

Definition has_tags (ts : list (string * string)) (h : Hash.t) : bool :=
  forallb (fun t => bool_decide (tag_field t.1 h = Some t.2)) ts.

(** The reply of the index to [FT.SEARCH]: of the stored hashes that carry
    every requested tag, the [k] nearest to the query vector, best first. *)
Definition ft_search (k : nat) (category memoryType : option string)
    (vec : Embedding) : M (list (string * Hash.t)) :=
  record (FT_SEARCH (searchQuery k category memoryType)) ;;;
  fun w =>
    let indexed := map_to_list (fields <$> store w) in
    let hits := List.filter (fun d => has_tags (tags category memoryType) d.2) indexed in
    (Ok (take k (by_score vec hits)), w).

(** The body of [if (fieldName === "metadata")]: the parsed object gets
    [confidence_current] and [confidence_original] when the guard passes. *)
Definition decode_metadata (metadata : Metadata) : M Metadata :=
  if truthy_opt (metadata !! "confidence") && truthy_opt (metadata !! "last_validated")
  then
    current <- calculateConfidenceDecay
                 (default VNull (metadata !! "confidence")) (metadata !! "last_validated") ;;
    let metadata := <["confidence_current" := current]> metadata in
    ret (<["confidence_original" := default VNull (metadata !! "confidence")]> metadata)
  else ret metadata.

(** One turn of the loop over the reply: the document and its fields become
    a pattern of the result. *)
Definition parse_hit (hit : string * Hash.t) (patterns : list Pattern.t)
    : M (list Pattern.t) :=
  let docId := hit.1 in
  let fields := hit.2 in
  metadata <- decode_metadata (Hash.metadata fields) ;;
  ret (patterns ++
       [Pattern.make docId (Hash.category fields) (Hash.memory_type fields)
          (Hash.content fields) metadata])%list.

Definition searchPatterns (query : string) (k : nat)
    (category memoryType : option string) : M SearchResult.t :=
  queryEmbedding <- generateEmbedding query ;;
  results <- ft_search k category memoryType queryEmbedding ;;
  patterns <- for_of results parse_hit [] ;;
  ret (SearchResult.make patterns query (category, memoryType) (length patterns)).

(** *** consolidate_memories *)

(** The body of the loop of the first phase (episodic to semantic). *)
Definition promote (dryRun : bool) (minEvidence : Value)
    (pattern : Pattern.t) (episodic_to_semantic : Phase.t) : M Phase.t :=
  let evidenceCount := or_else (Pattern.metadata pattern !! "evidence_count") (VNum 0) in
  if ge evidenceCount minEvidence then
    let episodic_to_semantic :=
      Phase.push
        (Candidate.make (Pattern.pattern_id pattern) (Pattern.category pattern)
           (substring 0 100 (Pattern.content pattern) ++ "...")
           evidenceCount (Pattern.metadata pattern !! "confidence") None)
        episodic_to_semantic in
    if negb dryRun then
      promoted_at <- new_Date ;;
      storePattern (Pattern.category pattern) "semantic" (Pattern.content pattern)
        (Some (<["original_pattern_id" := VStr (Pattern.pattern_id pattern)]>
              (<["promoted_at" := VDate promoted_at]>
              (<["promoted_from" := VStr "episodic"]> (Pattern.metadata pattern))))) ;;;
      ret (Phase.incr episodic_to_semantic)
    else ret episodic_to_semantic
  else ret episodic_to_semantic.

(** The body of the loop of the second phase (semantic to canonical). *)
Definition graduate (dryRun : bool)
    (pattern : Pattern.t) (semantic_to_canonical : Phase.t) : M Phase.t :=
  let evidenceCount := or_else (Pattern.metadata pattern !! "evidence_count") (VNum 0) in
  let confidence := or_else (Pattern.metadata pattern !! "confidence") (VNum 0) in
  if ge evidenceCount (VNum SEMANTIC_TO_LONGTERM) && ge confidence (VNum MIN_CONFIDENCE) then
    let semantic_to_canonical :=
      Phase.push
        (Candidate.make (Pattern.pattern_id pattern) (Pattern.category pattern)
           (substring 0 100 (Pattern.content pattern) ++ "...")
           evidenceCount (Some confidence) (Some true))
        semantic_to_canonical in
    if negb dryRun then ret (Phase.incr semantic_to_canonical)
    else ret semantic_to_canonical
  else ret semantic_to_canonical.

Definition consolidateMemories
    (dryRun : bool) (promotionType : string) (minEvidence : Value) : M Report.t :=
  episodic_to_semantic <-
    (if String.eqb promotionType "episodic_to_semantic" || String.eqb promotionType "both"
     then
       episodicPatterns <- searchPatterns "*" 1000 None (Some "episodic") ;;
       for_of (SearchResult.results episodicPatterns) (promote dryRun minEvidence)
         (Phase.make [] 0)
     else ret (Phase.make [] 0)) ;;
  semantic_to_canonical <-
    (if String.eqb promotionType "semantic_to_canonical" || String.eqb promotionType "both"
     then
       semanticPatterns <- searchPatterns "*" 1000 None (Some "semantic") ;;
       for_of (SearchResult.results semanticPatterns) (graduate dryRun) (Phase.make [] 0)
     else ret (Phase.make [] 0)) ;;
  ret (Report.make dryRun promotionType episodic_to_semantic semantic_to_canonical
         (Summary.make
            (length (Phase.candidates episodic_to_semantic))
            (Phase.counter episodic_to_semantic)
            (length (Phase.candidates semantic_to_canonical))
            "Canonical graduation to knowledge/ requires manual review and markdown export")).

(** *** The tool-call handler *)

(** [s || d] on an optional string *)
Definition str_or (o : option string) (d : string) : string :=
  match o with
  | Some s => if String.eqb s "" then d else s
  | None => d
  end.

(** [v !== false] *)
Definition not_false (o : option Value) : bool :=
  match o with
  | Some (VBool false) => false
  | _ => true
  end.

Definition dispatch (request : Request) : M ToolResult :=
  match request with
  | store_pattern args =>
      result <- storePattern (StoreArgs.category args)
                  (str_or (StoreArgs.memory_type args) "semantic")
                  (StoreArgs.content args) (StoreArgs.metadata args) ;;
      ret (of_store result)
  | search_patterns args =>
      result <- searchPatterns (SearchArgs.query args)
                  (default 5%nat (SearchArgs.k args))
                  (SearchArgs.category args) (SearchArgs.memory_type args) ;;
      ret (of_search result)
  | consolidate_memories args =>
      result <- consolidateMemories
                  (not_false (ConsolidateArgs.dry_run args))
                  (str_or (ConsolidateArgs.promotion_type args) "episodic_to_semantic")
                  (or_else (ConsolidateArgs.min_evidence args) (VNum 5)) ;;
      ret (of_consolidate result)
  | unknown_tool name => throw (Error ("Unknown tool: " ++ name))
  end.

(** The handler: what the [switch] returns, or what the [catch] makes of the
    exception. *)
Definition CallTool (request : Request) : M Response :=
  fun w =>
    match dispatch request w with
    | (Ok result, w') => (Ok (content result), w')
    | (Throw error, w') => (Ok (isError error), w')
    end.

End Server.

(** ** A concrete outside world, for examples *)

(** Whole elapsed months only. *)
Definition pow_floor (b e : Q) : Q := Qpower b (Qfloor e).

(** An embedding service that always answers, an index that ranks the
    documents in key order. *)
Definition lab : Outside := {|
  Math_pow := pow_floor;
  embeddings := fun _ => Some [1%Q];
  by_score := fun _ l => l;
|}.

(** An embedding service that is down. *)
Definition offline : Outside := {|
  Math_pow := pow_floor;
  embeddings := fun _ => None;
  by_score := fun _ l => l;
|}.

(** An empty store at instant [now]. *)
Definition empty_at (now : Z) : World := mkWorld ∅ now [].

(** The metadata object [{confidence, evidence_count}]. *)
Definition metadata_of (confidence evidence_count : Q) : Metadata :=
  <["evidence_count" := VNum evidence_count]> (<["confidence" := VNum confidence]> ∅).

(** The world after a tool call in the lab, and the response to it. *)
Definition world_after (request : Request) (w : World) : World :=
  (CallTool (outside := lab) request w).2.

Definition response_to (request : Request) (w : World) : Result Response :=
  (CallTool (outside := lab) request w).1.

(** [consolidate_memories] requests. *)
Definition consolidate (dry_run : bool) (promotion_type : string) (min_evidence : Q) : Request :=
  consolidate_memories
    (ConsolidateArgs.make (Some (VBool dry_run)) (Some promotion_type)
       (Some (VNum min_evidence))).

(** The same store, [ms] milliseconds later. *)
Definition later (ms : Z) (w : World) : World :=
  mkWorld (store w) (clock w + ms) (calls w).

(** A store with one well-evidenced episodic pattern, written by
    [store_pattern] at instant 1000. *)
Definition one_episodic : World :=
  world_after
    (store_pattern
       (StoreArgs.make "solution" (Some "episodic") "abc" (Some (metadata_of (97 # 100) 25))))
    (empty_at 1000).

(** A store with three episodic patterns, of evidence 5, 4 and none. *)
Definition three_episodic : World :=
  world_after
    (store_pattern
       (StoreArgs.make "pattern" (Some "episodic") "none"
          (Some (<["confidence" := VNum (1 # 2)]> ∅))))
    (world_after
       (store_pattern
          (StoreArgs.make "failure" (Some "episodic") "four"
             (Some (metadata_of (8 # 10) 4))))
       (world_after
          (store_pattern
             (StoreArgs.make "solution" (Some "episodic") "five"
                (Some (metadata_of (9 # 10) 5))))
          (empty_at 1000))).

(** A store with one semantic pattern of confidence 0. *)
Definition zero_confidence : World :=
  world_after
    (store_pattern
       (StoreArgs.make "failure" None "abc" (Some (metadata_of 0 1))))
    (empty_at 1000).

(** ** The decay law as the specification words it *)

(** Thirty days, in milliseconds. *)
Definition thirty_days : Z := 30 * (24 * 60 * 60 * 1000).

(** Elapsed time in months: continuous, thirty days to the month. *)
Definition months_between (now last_validated : Z) : Q :=
  inject_Z (now - last_validated) / inject_Z thirty_days.

Definition clamp (lo hi x : Q) : Q :=
  if Qlt_le_dec x lo then lo else if Qlt_le_dec hi x then hi else x.

(** [confidence_original × 0.95^months], clamped to the unit interval. *)
Definition decay_spec {outside : Outside} (now : Z) (confidence_original : Q) (last_validated : Z) : Q :=
  clamp 0 1 (confidence_original * Math_pow (95 # 100) (months_between now last_validated)).

(** A number of the unit interval. *)
Definition in_unit (v : Value) : Prop :=
  exists q, v = VNum q /\ (0 <= q <= 1)%Q.

(** ** Predicates on runs *)

(** [w'] comes from [w] by the calls [cs] (most recent first): same clock. *)
Definition after (cs : list Call) (w w' : World) : Prop :=
  clock w' = clock w /\ calls w' = (cs ++ calls w)%list.

(** Nothing was written between [w] and [w']. *)
Definition no_write (w w' : World) : Prop :=
  store w' = store w /\
  exists cs, after cs w w' /\ forallb (fun c => negb (is_write c)) cs = true.

(** The stored metadata of a key. *)
Definition stored_metadata (w : World) (key : string) : option Metadata :=
  Hash.metadata <$> (fields <$> store w !! key).

(** The metadata [storePattern] writes for the metadata it is given, at
    instant [now]. *)
Definition enriched (now : Z) (metadata : Metadata) : Metadata :=
  <["validation_contexts" := or_else (metadata !! "validation_contexts") (VList [])]>
  (<["source" := or_else (metadata !! "source") (VStr "unknown")]>
  (<["last_validated" := VDate now]>
  (<["created_at" := VDate now]> metadata))).

(** The [ttl] of the tier table for a memory type; [ttl_undefined] for a
    name that is not in the table. *)
Definition resolved_ttl (memoryType : string) : Ttl :=
  match find (fun m => String.eqb (name m) memoryType) MEMORY_TYPES with
  | Some m => ttl m
  | None => ttl_undefined
  end.

(** The seconds given to [expire], when it is called. *)
Definition expires_in (t : Ttl) : option Z :=
  match t with
  | ttl_seconds n => if ttl_truthy t then Some n else None
  | _ => None
  end.

(** The world after [hSet key h]. *)
Definition written (key : string) (h : Hash.t) (w : World) : World :=
  mkWorld (<[key := mkEntry h (store w !! key ≫= expiration)]> (store w))
    (clock w) (HSET key :: calls w).

(** The world after [expire key n]. *)
Definition expiring (key : string) (n : Z) (w : World) : World :=
  mkWorld (alter (fun e => mkEntry (fields e) (Some n)) key (store w))
    (clock w) (EXPIRE key n :: calls w).

(** The world after the embedding service was asked about [text]. *)
Definition asked (text : string) (w : World) : World :=
  mkWorld (store w) (clock w) (embeddings_create text :: calls w).

(** The world after the index was queried. *)
Definition searched (k : nat) (category memoryType : option string) (w : World) : World :=
  mkWorld (store w) (clock w) (FT_SEARCH (searchQuery k category memoryType) :: calls w).

(** The test of the first phase, as a predicate on patterns. *)
Definition meets_threshold (minEvidence : Value) (p : Pattern.t) : bool :=
  ge (or_else (Pattern.metadata p !! "evidence_count") (VNum 0)) minEvidence.

(** The test of the second phase. *)
Definition canonical (p : Pattern.t) : bool :=
  ge (or_else (Pattern.metadata p !! "evidence_count") (VNum 0)) (VNum SEMANTIC_TO_LONGTERM)
  && ge (or_else (Pattern.metadata p !! "confidence") (VNum 0)) (VNum MIN_CONFIDENCE).

(** The candidate the second phase records for a pattern. *)
Definition canonical_candidate (p : Pattern.t) : Candidate.t :=
  Candidate.make (Pattern.pattern_id p) (Pattern.category p)
    (substring 0 100 (Pattern.content p) ++ "...")
    (or_else (Pattern.metadata p !! "evidence_count") (VNum 0))
    (Some (or_else (Pattern.metadata p !! "confidence") (VNum 0))) (Some true).

(** The candidate the first phase records for a pattern. *)
Definition episodic_candidate (p : Pattern.t) : Candidate.t :=
  Candidate.make (Pattern.pattern_id p) (Pattern.category p)
    (substring 0 100 (Pattern.content p) ++ "...")
    (or_else (Pattern.metadata p !! "evidence_count") (VNum 0))
    (Pattern.metadata p !! "confidence") None.

(** The evidence count of a pattern as a number: the field when it holds a
    number, 0 when the metadata has no such field. *)
Definition evidence (p : Pattern.t) : Q :=
  match Pattern.metadata p !! "evidence_count" with
  | Some (VNum n) => n
  | _ => 0
  end.

Definition numeric_evidence (p : Pattern.t) : Prop :=
  match Pattern.metadata p !! "evidence_count" with
  | Some (VNum _) | None => True
  | _ => False
  end.

(** The two phases of [consolidateMemories], when they run, and the tests
    that decide whether they do. *)
Definition runs_first (promotionType : string) : bool :=
  String.eqb promotionType "episodic_to_semantic" || String.eqb promotionType "both".

Definition runs_second (promotionType : string) : bool :=
  String.eqb promotionType "semantic_to_canonical" || String.eqb promotionType "both".

Definition first_phase {outside : Outside} (dryRun : bool) (minEvidence : Value) : M Phase.t :=
  episodicPatterns <- searchPatterns "*" 1000 None (Some "episodic") ;;
  for_of (SearchResult.results episodicPatterns) (promote dryRun minEvidence) (Phase.make [] 0).

Definition second_phase {outside : Outside} (dryRun : bool) : M Phase.t :=
  semanticPatterns <- searchPatterns "*" 1000 None (Some "semantic") ;;
  for_of (SearchResult.results semanticPatterns) (graduate dryRun) (Phase.make [] 0).

(** The world after one search for ["*"] over a tier. *)
Definition enumerated (tier : string) (w : World) : World :=
  searched 1000 None (Some tier) (asked "*" w).

(** A request is rejected up front when the handler answers with an error
    and has called nothing outside: the world, calls included, is as it was. *)
Definition rejected_up_front {outside : Outside} (request : Request) (w : World) : Prop :=
  exists error, CallTool request w = (Ok (isError error), w).

(** ** Further notions used to state what the code keeps *)

(** The polynomial in 31 over the code units, without wrap-around. *)
Definition poly31 (units : list Z) : Z :=
  fold_left (fun h c => 31 * h + c) units 0.

(** The three tiers of the table. *)
Definition known_tier (memoryType : string) : Prop :=
  memoryType = "semantic" \/ memoryType = "episodic" \/ memoryType = "procedural".

(** The expiration the tier table gives a tier. *)
Definition tier_expiration (memoryType : string) : option Z :=
  expires_in (resolved_ttl memoryType).

(** Every stored pattern sits under the key derived from its own fields, in
    one of the three tiers, with the expiration of that tier. *)
Definition tiered (w : World) : Prop :=
  forall key e, store w !! key = Some e ->
    known_tier (Hash.memory_type (fields e)) /\
    key = patternId (Hash.category (fields e)) (Hash.memory_type (fields e))
            (Hash.content (fields e)) /\
    expiration e = tier_expiration (Hash.memory_type (fields e)).

(** A request whose [memory_type], when it has one, is a tier of the table. *)
Definition in_schema (request : Request) : Prop :=
  match request with
  | store_pattern args => known_tier (str_or (StoreArgs.memory_type args) "semantic")
  | _ => True
  end.

(** The handler serving the requests of a list in turn. *)
Fixpoint serve {outside : Outside} (requests : list Request) (w : World) : World :=
  match requests with
  | [] => w
  | request :: rest => serve rest (CallTool request w).2
  end.

(** One turn of the loop of [hashCode]. *)
Definition hash_step (hash char : Z) : Z :=
  let hash := shl hash 5 - hash + char in band hash hash.

(** The entry [storePattern] leaves under a pattern's key. *)
Definition entry_written {outside : Outside} (category memoryType content : string)
    (metadata : Metadata) (e : Embedding) (w : World) : Entry :=
  mkEntry
    (Hash.make category memoryType content
       (JSON_roundtrip <$> enriched (clock w) metadata) e)
    (match tier_expiration memoryType with
     | Some n => Some n
     | None => store w !! patternId category memoryType content ≫= expiration
     end).

(** A computation keeps a property of the world, however it ends. *)
Definition preserves {A : Type} (P : World -> Prop) (m : M A) : Prop :=
  forall w, P w -> P (m w).2.

(** The number of [HSET] calls in a log. *)
Definition hsets (cs : list Call) : nat :=
  length (List.filter (fun c => match c with HSET _ => true | _ => false end) cs).

(** A pattern of a search result is the decoding of a hit of the index. *)
Definition decodes {outside : Outside} (w : World)
    (hit : string * Hash.t) (p : Pattern.t) : Prop :=
  Pattern.pattern_id p = hit.1 /\
  Pattern.category p = Hash.category hit.2 /\
  Pattern.memory_type p = Hash.memory_type hit.2 /\
  Pattern.content p = Hash.content hit.2 /\
  decode_metadata (Hash.metadata hit.2) w = (Ok (Pattern.metadata p), w).

(** An index that returns only documents that passed the tag filters. *)
Definition index_selects {outside : Outside} : Prop :=
  forall vec docs d, In d (by_score vec docs) -> In d docs.

(** The confidence of a pattern as a number, 0 when the field is absent. *)
Definition confidence_of (p : Pattern.t) : Q :=
  match Pattern.metadata p !! "confidence" with
  | Some (VNum c) => c
  | _ => 0
  end.

Definition numeric_confidence (p : Pattern.t) : Prop :=
  match Pattern.metadata p !! "confidence" with
  | Some (VNum _) | None => True
  | _ => False
  end.

(** The store holds [v] under [key]. *)
Definition same_at (key : string) (v : option Entry) (w : World) : Prop :=
  store w !! key = v.

(** A candidate shows a stored pattern: its id is a key of the store, and
    its [content] is the preview of the content stored under that key. *)
Definition previews (w : World) (c : Candidate.t) : Prop :=
  exists e,
    store w !! Candidate.pattern_id c = Some e /\
    Candidate.category c = Hash.category (fields e) /\
    Candidate.content c = substring 0 100 (Hash.content (fields e)) ++ "..." /\
    (String.length (Candidate.content c) <= 103)%nat /\
    ((String.length (Hash.content (fields e)) <= 100)%nat ->
     Candidate.content c = Hash.content (fields e) ++ "...").

(** ** Confidence decay where the power leaves the range of binary64 *)

(** The rational numbers of [calculateConfidenceDecay] cannot show what
    happens when [Math.pow] overflows.  This second embedding of the function
    keeps the infinities: it is the same program, and it returns the same
    number wherever the power is in range. *)
Module Binary64.

(** A number as the arithmetic leaves it: a number of the range, kept exact,
    one of the infinities, or [NaN]. *)
Inductive Number : Type :=
| Finite (q : Q)
| Infinity
| NegInfinity
| NaN.

(** What the function hands back: its first argument as it came, or the
    number it has computed. *)
Inductive Returned : Type :=
| argument (v : Value)
| computed (n : Number).

(** [Math.pow b e] is [Infinity] when the power is above the largest number
    of binary64; which powers are is the library's business. *)
Class Overflow : Type := {
  pow_overflows : Q -> Q -> bool;
}.

Definition ToNumber (v : Value) : Number :=
  match Js.ToNumber v with
  | Some q => Finite q
  | None => NaN
  end.

(** The sign of a number; [None] for [NaN]. *)
Definition sign (n : Number) : option comparison :=
  match n with
  | Finite q => Some (q ?= 0)%Q
  | Infinity => Some Gt
  | NegInfinity => Some Lt
  | NaN => None
  end.

(** [a * b]: an infinity times zero is [NaN], an infinity times anything
    else is an infinity with the product of the signs.  The product of two
    numbers of the range is kept exact: were it to leave the range, the
    clamp that follows would give the same 0 or 1. *)
Definition mul (a b : Number) : Number :=
  match a, b with
  | Finite x, Finite y => Finite (x * y)%Q
  | _, _ =>
      match sign a, sign b with
      | Some Gt, Some Gt | Some Lt, Some Lt => Infinity
      | Some Gt, Some Lt | Some Lt, Some Gt => NegInfinity
      | _, _ => NaN
      end
  end.

Definition Math_min (a b : Number) : Number :=
  match a, b with
  | NaN, _ | _, NaN => NaN
  | NegInfinity, _ | _, NegInfinity => NegInfinity
  | Infinity, n | n, Infinity => n
  | Finite x, Finite y => Finite (if Qle_bool x y then x else y)
  end.

Definition Math_max (a b : Number) : Number :=
  match a, b with
  | NaN, _ | _, NaN => NaN
  | Infinity, _ | _, Infinity => Infinity
  | NegInfinity, n | n, NegInfinity => n
  | Finite x, Finite y => Finite (if Qle_bool x y then y else x)
  end.

Section Decay.

Context {outside : Outside} {overflow : Overflow}.

Definition Math_pow (b e : Q) : Number :=
  if pow_overflows b e then Infinity else Finite (@Math_pow outside b e).

Definition calculateConfidenceDecay
    (confidence : Value) (lastValidated : option Value) : M Returned :=
  if negb (truthy_opt lastValidated) then ret (argument confidence)
  else
    now <- new_Date ;;
    let lastValidatedDate := lastValidated ≫= time_value in
    let monthsSinceLastUse :=
      (fun t => inject_Z (now - t) / inject_Z (1000 * 60 * 60 * 24 * 30))%Q
        <$> lastValidatedDate in
    let decayedConfidence :=
      mul (ToNumber confidence)
        (match monthsSinceLastUse with
         | Some months => Math_pow (95 # 100) months
         | None => NaN
         end) in
    ret (computed (Math_max (Finite 0) (Math_min (Finite 1) decayedConfidence))).

End Decay.

(** A result in the unit interval. *)
Definition in_unit (r : Returned) : Prop :=
  match r with
  | argument (VNum q) | computed (Finite q) => (0 <= q <= 1)%Q
  | _ => False
  end.

End Binary64.

(** [Math.pow(0.95, e)] is [Infinity] from about [e = -13838] down; the lab
    takes it to be so from [-14000] down. *)
Definition lab_overflow : Binary64.Overflow := {|
  Binary64.pow_overflows := fun _ e => Qle_bool e (- 14000);
|}.

(** ** Reminders *)

(** A stored reminder: the object [setReminder] serialises. *)
Module Reminder.
Record t : Type := make {
  reminder_id : string;
  content : string;
  priority : string;
  created_at : Z;
}.
End Reminder.

(** The reminder hashes of the key-value store, one per task type, and the
    clock. *)
Record Desk : Type := mkDesk {
  reminder_hashes : gmap string (gmap string Reminder.t);
  desk_clock : Z;
}.

(** The order in which [HGETALL] lists the fields of a hash is the store's
    business: some rearrangement of the fields. *)
Class FieldOrder : Type := {
  hgetall_order : list (string * Reminder.t) -> list (string * Reminder.t);
  hgetall_order_perm : forall l, hgetall_order l ≡ₚ l;
}.

(** The decimal numeral of an integer. *)
Definition signed_decimal (z : Z) : string :=
  if (z <? 0)%Z then "-" ++ decimal (- z) else decimal z.

(** The hash under a key; a missing key reads as an empty hash. *)
Definition reminder_hash (d : Desk) (reminderKey : string) : gmap string Reminder.t :=
  default ∅ (reminder_hashes d !! reminderKey).

(** What [setReminder] returns. *)
Module ReminderSet.
Record t : Type := make {
  status : string;
  reminder_id : string;
}.
End ReminderSet.

(** [priority] is [None] when the argument is [undefined]. *)
Definition setReminder (taskType reminder : string) (priority : option string)
    (d : Desk) : ReminderSet.t * Desk :=
  let priority := default "info" priority in
  let reminderKey := "reminder:" ++ taskType in
  let reminderId := "r_" ++ signed_decimal (desk_clock d) in
  let reminderData := Reminder.make reminderId reminder priority (desk_clock d) in
  (ReminderSet.make "ok" reminderId,
   mkDesk (<[reminderKey := <[reminderId := reminderData]> (reminder_hash d reminderKey)]>
             (reminder_hashes d))
          (desk_clock d)).

(** [priorityOrder[p]]; [None] is [undefined]. *)
Definition priorityOrder (p : string) : option Z :=
  if String.eqb p "critical" then Some 0
  else if String.eqb p "important" then Some 1
  else if String.eqb p "info" then Some 2
  else None.

(** The comparator of the sort; the [NaN] of an unknown priority is read as
    0 by [sort]. *)
Definition by_priority (a b : Reminder.t) : Z :=
  match priorityOrder (Reminder.priority a), priorityOrder (Reminder.priority b) with
  | Some x, Some y => x - y
  | _, _ => 0
  end.

(** [Array.prototype.sort], which is stable: an element goes after the
    elements that do not compare greater than it.  For a comparator that is
    not consistent the order that [sort] gives is left to the engine, and
    this is one of the orders it may give. *)
Fixpoint sort_insert {A : Type} (cmp : A -> A -> Z) (x : A) (l : list A) : list A :=
  match l with
  | [] => [x]
  | y :: l' => if (0 <? cmp y x)%Z then x :: y :: l' else y :: sort_insert cmp x l'
  end.

Definition Array_sort {A : Type} (cmp : A -> A -> Z) (l : list A) : list A :=
  fold_left (fun sorted x => sort_insert cmp x sorted) l [].

(** What [checkReminders] returns. *)
Module Reminders.
Record t : Type := make {
  task_type : string;
  reminders : list Reminder.t;
  count : nat;
}.
End Reminders.

Definition checkReminders {order : FieldOrder} (taskType : string) (d : Desk) : Reminders.t :=
  let reminderKey := "reminder:" ++ taskType in
  let data := hgetall_order (map_to_list (reminder_hash d reminderKey)) in
  let reminders := map snd data in
  let reminders := Array_sort by_priority reminders in
  Reminders.make taskType reminders (length reminders).

(** The fields in key order. *)
Definition key_order : FieldOrder := {|
  hgetall_order := fun l => l;
  hgetall_order_perm := fun l => reflexivity l;
|}.

(** The reminders of a priority, in the order of a list. *)
Definition with_priority (p : string) (l : list Reminder.t) : list Reminder.t :=
  List.filter (fun r => String.eqb (Reminder.priority r) p) l.

Definition known_priority (r : Reminder.t) : Prop :=
  Reminder.priority r = "critical" \/ Reminder.priority r = "important" \/
  Reminder.priority r = "info".

(** ** Vectors in the store *)

(** The binary32 codec of [Buffer]: the four bytes [writeFloatLE] writes for
    a number, the number [readFloatLE] reads from four bytes, and the
    rounding to the nearest binary32 that a write followed by a read
    amounts to. *)
Class Float32 : Type := {
  fround : Q -> Q;
  float_bytes : Q -> Byte.byte * Byte.byte * Byte.byte * Byte.byte;
  bytes_float : Byte.byte -> Byte.byte -> Byte.byte -> Byte.byte -> Q;
  read_write : forall q,
    bytes_float (float_bytes q).1.1.1 (float_bytes q).1.1.2
                (float_bytes q).1.2 (float_bytes q).2 = fround q;
}.

(** [encodeVector]: a buffer of four bytes per entry, entry [i] written at
    offset [4 i]. *)
Definition encodeVector {codec : Float32} (vector : list Q) : list Byte.byte :=
  flat_map (fun val => [(float_bytes val).1.1.1; (float_bytes val).1.1.2;
                        (float_bytes val).1.2; (float_bytes val).2]) vector.

(** [decodeVector]: one [readFloatLE] every four bytes, from offset 0 while
    the offset is inside the buffer; [None] when a read throws because fewer
    than four bytes are left at its offset. *)
Fixpoint decodeVector {codec : Float32} (buffer : list Byte.byte) : option (list Q) :=
  match buffer with
  | [] => Some []
  | b0 :: b1 :: b2 :: b3 :: rest =>
      match decodeVector rest with
      | Some vector => Some (bytes_float b0 b1 b2 b3 :: vector)
      | None => None
      end
  | _ => None
  end.

(** A codec that keeps the integer part of a number modulo 256, in its first
    byte. *)
Definition low_byte (q : Q) : Byte.byte :=
  default Byte.x00 (Byte.of_N (Z.to_N (Qfloor q mod 256))).

Definition byte_value (b : Byte.byte) : Q := inject_Z (Z.of_N (Byte.to_N b)).

Definition one_byte_codec : Float32 := {|
  fround := fun q => byte_value (low_byte q);
  float_bytes := fun q => (low_byte q, Byte.x00, Byte.x00, Byte.x00);
  bytes_float := fun b0 _ _ _ => byte_value b0;
  read_write := fun q => eq_refl;
|}.

(** ** health_check *)

(** What the health check asks the store: the error of [ping], [None] when
    it answers; whether [ft.info] finds the index; and the message of the
    error of the embedding service, when it fails. *)
Class Infra : Type := {
  ping : option string;
  index_found : bool;
  embedding_error : string;
}.

Module Checks.
Record t : Type := make {
  redis : string;
  openai : string;
  vector_index : string;
}.
End Checks.

Module Health.
Record t : Type := make {
  status : string;
  checks : Checks.t;
}.
End Health.

(** [healthCheck]; each [try] block sets one field of [checks]. *)
Definition healthCheck {outside : Outside} {infra : Infra} : M Health.t :=
  fun w =>
    let redis := match ping with
                 | None => "connected"
                 | Some message => "error: " ++ message
                 end in
    let '(embedded, w') := generateEmbedding "test" w in
    let openai := match embedded with
                  | Ok _ => "connected"
                  | Throw _ => "error: " ++ embedding_error
                  end in
    let vector_index := if index_found then "exists" else "missing" in
    let healthy := String.eqb redis "connected" && String.eqb openai "connected" in
    (Ok (Health.make (if healthy then "healthy" else "degraded")
           (Checks.make redis openai vector_index)), w').

(** ** Concrete runs, for examples *)

(** A pattern as a search would show it. *)
Definition shown_pattern : Pattern.t :=
  Pattern.make "pattern:episodic:solution:96354" "solution" "episodic" "abc"
    (metadata_of (97 # 100) 25).

(** What a search for the semantic tier finds in the store [zero_confidence],
    and the world it leaves. *)
Definition zero_confidence_search : Result SearchResult.t * World :=
  Eval vm_compute in
    searchPatterns (outside := lab) "abc" 5 None (Some "semantic") zero_confidence.

Definition zero_confidence_found : SearchResult.t :=
  match zero_confidence_search.1 with
  | Ok r => r
  | Throw _ => SearchResult.make [] "" (None, None) 0
  end.

(** A real consolidation of both phases on the store [one_episodic]. *)
Definition one_episodic_consolidation : Result Report.t * World :=
  Eval vm_compute in
    consolidateMemories (outside := lab) false "both" (VNum 5) one_episodic.

Definition one_episodic_report : Report.t :=
  match one_episodic_consolidation.1 with
  | Ok r => r
  | Throw _ =>
      Report.make false "" (Phase.make [] 0) (Phase.make [] 0) (Summary.make 0 0 0 "")
  end.

(** A store that answers the ping and has no index. *)
Definition no_index : Infra := {|
  ping := None;
  index_found := false;
  embedding_error := "";
|}.

(** The enumeration of the semantic tier after that consolidation. *)
Definition promoted_enumeration : Result SearchResult.t * World :=
  Eval vm_compute in
    searchPatterns (outside := lab) "*" 1000 None (Some "semantic")
      one_episodic_consolidation.2.

Definition promoted_found : SearchResult.t :=
  match promoted_enumeration.1 with
  | Ok r => r
  | Throw _ => SearchResult.make [] "" (None, None) 0
  end.

(** What the enumeration of the episodic tier finds in [three_episodic]. *)
Definition three_episodic_enumeration : Result SearchResult.t * World :=
  Eval vm_compute in
    searchPatterns (outside := lab) "*" 1000 None (Some "episodic") three_episodic.

Definition three_episodic_found : SearchResult.t :=
  match three_episodic_enumeration.1 with
  | Ok r => r
  | Throw _ => SearchResult.make [] "" (None, None) 0
  end.

(** The answer to a real [consolidate_memories] with [min_evidence = 0] on
    [three_episodic]. *)
Definition zero_threshold_call : Result Response * World :=
  Eval vm_compute in
    CallTool (outside := lab)
      (consolidate_memories
         (ConsolidateArgs.make (Some (VBool false)) None (Some (VNum 0))))
      three_episodic.

Definition zero_threshold_report : Report.t :=
  match zero_threshold_call.1 with
  | Ok (content (of_consolidate r)) => r
  | _ => Report.make false "" (Phase.make [] 0) (Phase.make [] 0) (Summary.make 0 0 0 "")
  end.

(** The same reminders, at another instant. *)
Definition desk_at (now : Z) (d : Desk) : Desk := mkDesk (reminder_hashes d) now.

(** A desk with four reminders for one task type, set one millisecond
    apart: important, info (by default), critical, info. *)
Definition four_reminders : Desk :=
  (setReminder "review" "d" (Some "info")
     (desk_at 1003
        (setReminder "review" "c" (Some "critical")
           (desk_at 1002
              (setReminder "review" "b" None
                 (desk_at 1001
                    (setReminder "review" "a" (Some "important") (mkDesk ∅ 1000)).2)).2)).2)).2.

(** The fields in the reverse of the key order. *)
Definition reverse_key_order : FieldOrder := {|
  hgetall_order := fun l => rev l;
  hgetall_order_perm := fun l => Permutation_sym (Permutation_rev l);
|}.

(** * Facts *)

Example decimal_ex : decimal 47483648 = "47483648" /\ decimal 0 = "0".
Proof. split; reflexivity. Qed.

Example hashCode_ex :
  hashCode "abc" = 96354 /\ hashCode "hello world" = 1794106052 /\
  hashCode "The quick brown fox" = -1739336029.
Proof. repeat split; vm_compute; reflexivity. Qed.

(** ** Numbers *)

Lemma clamp_in_unit (x : Q) : (0 <= clamp 0 1 x <= 1)%Q.
Proof.
  unfold clamp.
  destruct (Qlt_le_dec x 0); [split; [apply Qle_refl | discriminate] |].
  destruct (Qlt_le_dec 1 x); [split; [discriminate | apply Qle_refl] |].
  split; assumption.
Qed.

Lemma max_min_clamp (x : Q) :
  exists r, Math_max (Some 0%Q) (Math_min (Some 1%Q) (Some x)) = Some r /\
            (r == clamp 0 1 x)%Q.
Proof.
  unfold Math_max, Math_min, clamp.
  destruct (Qle_bool 1 x) eqn:H1.
  - apply Qle_bool_iff in H1.
    exists 1%Q. split; [reflexivity |].
    destruct (Qlt_le_dec x 0) as [Hx | Hx]; [lra |].
    destruct (Qlt_le_dec 1 x) as [Hy | Hy]; [reflexivity | lra].
  - assert (Hlt : (x < 1)%Q).
    { apply Qnot_le_lt. intros Hle. apply Qle_bool_iff in Hle. congruence. }
    destruct (Qle_bool 0 x) eqn:H0.
    + apply Qle_bool_iff in H0.
      exists x. split; [reflexivity |].
      destruct (Qlt_le_dec x 0) as [Hx | Hx]; [lra |].
      destruct (Qlt_le_dec 1 x) as [Hy | Hy]; [lra | reflexivity].
    + assert (Hneg : (x < 0)%Q).
      { apply Qnot_le_lt. intros Hle. apply Qle_bool_iff in Hle. congruence. }
      exists 0%Q. split; [reflexivity |].
      destruct (Qlt_le_dec x 0) as [Hx | Hx]; [reflexivity | lra].
Qed.

Lemma digest_bound (content : string) : 0 <= digest content < 100000000.
Proof.
  unfold digest. apply Z.rem_bound_pos; [apply Z.abs_nonneg | lia].
Qed.

Lemma ToInt32_range (z : Z) : - 2 ^ 31 <= ToInt32 z < 2 ^ 31.
Proof.
  unfold ToInt32.
  pose proof (Z.mod_pos_bound (z + 2 ^ 31) (2 ^ 32) ltac:(lia)). lia.
Qed.

(** When the embedding service is down [store_pattern] fails and nothing is
    written. *)
Example store_pattern_offline :
  CallTool (outside := offline)
    (store_pattern (StoreArgs.make "solution" None "abc" (Some (metadata_of 1 1))))
    (empty_at 1000)
  = (Ok (isError EmbeddingError), asked "abc" (empty_at 1000)).
Proof. reflexivity. Qed.

(** ** Confidence decay *)

Section Facts.

Context {outside : Outside}.

(** With no usable [lastValidated] the argument comes back as it is, and the
    world is not touched. *)
Lemma decay_not_validated (c : Value) (lv : option Value) (w : World) :
  truthy_opt lv = false -> calculateConfidenceDecay c lv w = (Ok c, w).
Proof.
  intros H. unfold calculateConfidenceDecay. rewrite H. reflexivity.
Qed.

(** The function never throws and never changes the world. *)
Lemma decay_runs (c : Value) (lv : option Value) (w : World) :
  exists r, calculateConfidenceDecay c lv w = (Ok r, w).
Proof.
  unfold calculateConfidenceDecay.
  destruct (negb (truthy_opt lv)); eexists; reflexivity.
Qed.

Lemma decay_validated (q : Q) (t : Z) (w : World) :
  exists r, calculateConfidenceDecay (VNum q) (Some (VDate t)) w = (Ok (VNum r), w) /\
            (r == decay_spec (clock w) q t)%Q.
Proof.
  unfold calculateConfidenceDecay, decay_spec, months_between.
  cbn [truthy_opt truthy negb bind new_Date ret mbind option_bind time_value
       fmap option_fmap option_map ToNumber mul].
  change (1000 * 60 * 60 * 24 * 30) with thirty_days.
  destruct (max_min_clamp
              (q * Math_pow (95 # 100) (inject_Z (clock w - t) / inject_Z thirty_days)))
    as (r & Hr & Heq).
  exists r. split; [| exact Heq].
  rewrite Hr. reflexivity.
Qed.


End Facts.

(** ** Confidence decay with the infinities *)

Section OverflowFacts.

Context {outside : Outside} {overflow : Binary64.Overflow}.

Lemma decay_overflow_aware (q : Q) (t : Z) (w : World) :
  Binary64.calculateConfidenceDecay (VNum q) (Some (VDate t)) w
  = (Ok (Binary64.computed
           (Binary64.Math_max (Binary64.Finite 0)
              (Binary64.Math_min (Binary64.Finite 1)
                 (Binary64.mul (Binary64.Finite q)
                    (Binary64.Math_pow (95 # 100) (months_between (clock w) t)))))),
     w).
Proof. reflexivity. Qed.

Lemma decay_exact (q : Q) (t : Z) (w : World) :
  calculateConfidenceDecay (VNum q) (Some (VDate t)) w
  = (Ok (of_number
           (Math_max (Some 0%Q)
              (Math_min (Some 1%Q)
                 (Some (q * Math_pow (95 # 100) (months_between (clock w) t))%Q)))),
     w).
Proof. reflexivity. Qed.

(** On a number of the range the two clamps agree, and give a number of the
    unit interval. *)
Lemma clamp_finite (x : Q) :
  exists r,
    Binary64.Math_max (Binary64.Finite 0) (Binary64.Math_min (Binary64.Finite 1)
                                             (Binary64.Finite x))
      = Binary64.Finite r /\
    Math_max (Some 0%Q) (Math_min (Some 1%Q) (Some x)) = Some r /\
    (0 <= r <= 1)%Q.
Proof.
  destruct (max_min_clamp x) as (r & Hr & Heq).
  exists r. split; [| split; [exact Hr |]].
  - unfold Math_max, Math_min in Hr. injection Hr as <-. reflexivity.
  - rewrite Heq. apply clamp_in_unit.
Qed.


End OverflowFacts.

(** [decay(0.9, six months ago) = 0.9 × 0.95^6], about 0.66 *)
Example decay_six_months :
  exists r,
    calculateConfidenceDecay (outside := lab) (VNum (9 # 10)) (Some (VDate 0))
      (empty_at (6 * thirty_days)) = (Ok (VNum r), empty_at (6 * thirty_days)) /\
    (r == (9 # 10) * (95 # 100) ^ 6)%Q /\ (66 # 100 < r < 67 # 100)%Q.
Proof.
  destruct (decay_validated (outside := lab) (9 # 10) 0 (empty_at (6 * thirty_days)))
    as (r & Hrun & Heq).
  assert (Hval : (decay_spec (outside := lab) (clock (empty_at (6 * thirty_days)))
                    (9 # 10) 0 == (9 # 10) * (95 # 100) ^ 6)%Q)
    by (vm_compute; reflexivity).
  exists r. split; [exact Hrun |]. rewrite Heq, Hval.
  split; [reflexivity |]. split; vm_compute; reflexivity.
Qed.


(** ** store_pattern *)

Section StoreFacts.

Context {outside : Outside}.

Lemma generateEmbedding_ok (text : string) (e : Embedding) (w : World) :
  embeddings text = Some e -> generateEmbedding text w = (Ok e, asked text w).
Proof.
  intros H. unfold generateEmbedding, bind, record. cbn. rewrite H. reflexivity.
Qed.

Lemma generateEmbedding_fails (text : string) (w : World) :
  embeddings text = None ->
  generateEmbedding text w = (Throw EmbeddingError, asked text w).
Proof.
  intros H. unfold generateEmbedding, bind, record. cbn. rewrite H. reflexivity.
Qed.

(** What a successful [storePattern] returns and leaves behind. *)
Lemma storePattern_ok (category memoryType content : string)
    (metadata : Metadata) (e : Embedding) (w : World) :
  embeddings content = Some e ->
  let key := patternId category memoryType content in
  let h := Hash.make category memoryType content
             (JSON_roundtrip <$> enriched (clock w) metadata) e in
  storePattern category memoryType content (Some metadata) w =
    (Ok (Stored.make key memoryType (resolved_ttl memoryType) "stored"),
     match expires_in (resolved_ttl memoryType) with
     | Some n => expiring key n (written key h (asked content w))
     | None => written key h (asked content w)
     end).
Proof.
  intros He key h.
  unfold storePattern, bind at 1. rewrite (generateEmbedding_ok _ _ _ He).
  fold (resolved_ttl memoryType). fold key.
  unfold expires_in.
  destruct (resolved_ttl memoryType) as [| | n]; try reflexivity.
  destruct (ttl_truthy (ttl_seconds n)); reflexivity.
Qed.

(** Without metadata the call throws after the embedding service was asked
    and before anything is written. *)
Lemma storePattern_no_metadata (category memoryType content : string) (w : World) :
  exists e, storePattern category memoryType content None w = (Throw e, asked content w).
Proof.
  unfold storePattern, bind at 1.
  destruct (embeddings content) as [v |] eqn:He.
  - rewrite (generateEmbedding_ok _ _ _ He). eexists. reflexivity.
  - rewrite (generateEmbedding_fails _ _ He). eexists. reflexivity.
Qed.

Lemma storePattern_id (category memoryType content : string)
    (metadata : option Metadata) (w : World) (s : Stored.t) :
  (storePattern category memoryType content metadata w).1 = Ok s ->
  Stored.pattern_id s = patternId category memoryType content.
Proof.
  destruct metadata as [md |].
  - destruct (embeddings content) as [e |] eqn:He.
    + rewrite (storePattern_ok _ _ _ md e w He). cbn. intros [= <-]. reflexivity.
    + unfold storePattern, bind at 1. rewrite (generateEmbedding_fails _ _ He).
      discriminate.
  - destruct (storePattern_no_metadata category memoryType content w) as (e & ->).
    discriminate.
Qed.

(** C3. A [storePattern] call for the episodic tier returns
    [ttl_seconds = 7776000] and sets an expiration of 7776000 seconds on the
    stored key; a call for the semantic or the procedural tier returns
    [ttl_seconds = null], makes no [expire] call and leaves the key's
    expiration as it was. *)
Theorem tier_ttl_law (category content : string) (metadata : Metadata)
    (e : Embedding) (w : World) :
  embeddings content = Some e ->
  (exists s w',
      storePattern category "episodic" content (Some metadata) w = (Ok s, w') /\
      Stored.ttl_seconds s = ttl_seconds 7776000 /\
      calls w' = EXPIRE (Stored.pattern_id s) 7776000 :: HSET (Stored.pattern_id s)
                   :: embeddings_create content :: calls w /\
      store w' !! Stored.pattern_id s ≫= expiration = Some 7776000) /\
  (forall memoryType, memoryType = "semantic" \/ memoryType = "procedural" ->
   exists s w',
      storePattern category memoryType content (Some metadata) w = (Ok s, w') /\
      Stored.ttl_seconds s = ttl_null /\
      calls w' = HSET (Stored.pattern_id s) :: embeddings_create content :: calls w /\
      store w' !! Stored.pattern_id s ≫= expiration
        = store w !! Stored.pattern_id s ≫= expiration).
Proof.
  intros He. split.
  - rewrite (storePattern_ok _ _ _ _ _ _ He).
    change (resolved_ttl "episodic") with (ttl_seconds 7776000).
    change (expires_in (ttl_seconds 7776000)) with (Some 7776000).
    eexists. eexists. split; [reflexivity |].
    split; [reflexivity |]. split; [reflexivity |].
    cbn [Stored.pattern_id expiring written asked store].
    rewrite lookup_alter_eq, lookup_insert_eq. reflexivity.
  - intros memoryType Hmt.
    rewrite (storePattern_ok _ _ _ _ _ _ He).
    assert (Httl : resolved_ttl memoryType = ttl_null)
      by (destruct Hmt as [-> | ->]; reflexivity).
    rewrite Httl. cbn [expires_in].
    eexists. eexists. split; [reflexivity |].
    split; [reflexivity |]. split; [reflexivity |].
    cbn [Stored.pattern_id written asked store].
    rewrite lookup_insert_eq. reflexivity.
Qed.

(** C7. Two [storePattern] calls with the same category, memory type and
    content, whatever their metadata and the worlds they run in, return the
    same [pattern_id]; it reads [pattern:{memory_type}:{category}:{digest}],
    and the digest, computed from the content alone, is a non-negative
    integer below 100000000. *)
Theorem pattern_id_deterministic (category memoryType content : string)
    (metadata1 metadata2 : option Metadata) (w1 w2 : World) (s1 s2 : Stored.t) :
  (storePattern category memoryType content metadata1 w1).1 = Ok s1 ->
  (storePattern category memoryType content metadata2 w2).1 = Ok s2 ->
  Stored.pattern_id s1 = Stored.pattern_id s2 /\
  Stored.pattern_id s1 =
    "pattern:" ++ memoryType ++ ":" ++ category ++ ":" ++ decimal (digest content) /\
  0 <= digest content < 100000000.
Proof.
  intros H1 H2.
  rewrite (storePattern_id _ _ _ _ _ _ H1), (storePattern_id _ _ _ _ _ _ H2).
  split; [reflexivity |]. split; [reflexivity |]. apply digest_bound.
Qed.

End StoreFacts.

(** ** search_patterns *)

Section SearchFacts.

Context {outside : Outside}.

Lemma no_write_refl (w : World) : no_write w w.
Proof.
  split; [reflexivity |]. exists []. repeat split.
Qed.

Lemma no_write_trans (w1 w2 w3 : World) :
  no_write w1 w2 -> no_write w2 w3 -> no_write w1 w3.
Proof.
  intros (Hs1 & cs1 & (Hc1 & Hl1) & Hr1) (Hs2 & cs2 & (Hc2 & Hl2) & Hr2).
  split; [congruence |].
  exists (cs2 ++ cs1)%list. repeat split.
  - congruence.
  - rewrite Hl2, Hl1. apply app_assoc.
  - rewrite forallb_app, Hr2, Hr1. reflexivity.
Qed.

Lemma no_write_asked (text : string) (w : World) : no_write w (asked text w).
Proof.
  split; [reflexivity |]. exists [embeddings_create text]. repeat split.
Qed.

Lemma no_write_searched k category memoryType (w : World) :
  no_write w (searched k category memoryType w).
Proof.
  split; [reflexivity |].
  exists [FT_SEARCH (searchQuery k category memoryType)]. repeat split.
Qed.

(** Decoding the metadata of a hit never throws and leaves the world alone. *)
Lemma decode_metadata_runs (metadata : Metadata) (w : World) :
  exists metadata', decode_metadata metadata w = (Ok metadata', w).
Proof.
  unfold decode_metadata.
  destruct (truthy_opt (metadata !! "confidence") &&
            truthy_opt (metadata !! "last_validated")).
  - unfold bind.
    destruct (decay_runs (default VNull (metadata !! "confidence"))
                (metadata !! "last_validated") w) as (r & ->).
    eexists. reflexivity.
  - eexists. reflexivity.
Qed.

(** When the guard passes, the decoded metadata gets the decayed value under
    [confidence_current] and the stored one under [confidence_original]. *)
Lemma decode_metadata_truthy (metadata : Metadata) (c lv : Value) (w : World) :
  metadata !! "confidence" = Some c -> metadata !! "last_validated" = Some lv ->
  truthy c = true -> truthy lv = true ->
  exists current,
    calculateConfidenceDecay c (Some lv) w = (Ok current, w) /\
    decode_metadata metadata w =
      (Ok (<["confidence_original" := c]> (<["confidence_current" := current]> metadata)), w).
Proof.
  intros Hc Hlv Htc Htlv.
  destruct (decay_runs c (Some lv) w) as (current & Hrun).
  exists current. split; [exact Hrun |].
  unfold decode_metadata. rewrite Hc, Hlv. cbn [truthy_opt]. rewrite Htc, Htlv.
  cbn [andb default from_option id]. unfold bind. rewrite Hrun. unfold ret.
  rewrite lookup_insert_ne by discriminate. rewrite Hc. reflexivity.
Qed.

(** When the guard fails the metadata is returned as it was stored. *)
Lemma decode_metadata_falsy (metadata : Metadata) (w : World) :
  truthy_opt (metadata !! "confidence") = false \/
  truthy_opt (metadata !! "last_validated") = false ->
  decode_metadata metadata w = (Ok metadata, w).
Proof.
  intros H. unfold decode_metadata.
  destruct H as [-> | ->]; [| rewrite andb_false_r]; reflexivity.
Qed.

Lemma parse_loop_runs (hits : list (string * Hash.t)) (acc : list Pattern.t) (w : World) :
  exists patterns, for_of hits parse_hit acc w = (Ok patterns, w).
Proof.
  revert acc. induction hits as [| hit hits IH]; intros acc.
  - eexists. reflexivity.
  - cbn [for_of]. unfold bind at 1. unfold parse_hit at 1. unfold bind at 1.
    destruct (decode_metadata_runs (Hash.metadata hit.2) w) as (md & ->).
    unfold ret at 1. apply IH.
Qed.

Lemma searchPatterns_ok query k category memoryType (e : Embedding) (w : World) :
  embeddings query = Some e ->
  exists patterns,
    searchPatterns query k category memoryType w =
      (Ok (SearchResult.make patterns query (category, memoryType) (length patterns)),
       searched k category memoryType (asked query w)).
Proof.
  intros He. unfold searchPatterns. unfold bind at 1.
  rewrite (generateEmbedding_ok _ _ _ He).
  unfold bind at 1. unfold ft_search at 1. unfold bind at 1. unfold record at 1.
  fold (searched k category memoryType (asked query w)).
  unfold bind at 1.
  match goal with |- context [for_of ?l parse_hit [] ?w'] =>
    destruct (parse_loop_runs l [] w') as (ps & ->) end.
  exists ps. reflexivity.
Qed.

Lemma searchPatterns_fails query k category memoryType (w : World) :
  embeddings query = None ->
  searchPatterns query k category memoryType w = (Throw EmbeddingError, asked query w).
Proof.
  intros He. unfold searchPatterns. unfold bind at 1.
  rewrite (generateEmbedding_fails _ _ He). reflexivity.
Qed.

(** A search writes nothing: the store is the same after it. *)
Lemma searchPatterns_no_write query k category memoryType (w : World) :
  no_write w (searchPatterns query k category memoryType w).2.
Proof.
  destruct (embeddings query) as [e |] eqn:He.
  - destruct (searchPatterns_ok query k category memoryType e w He) as (ps & ->).
    cbn [snd]. eapply no_write_trans; [apply no_write_asked | apply no_write_searched].
  - rewrite (searchPatterns_fails _ _ _ _ _ He). apply no_write_asked.
Qed.

End SearchFacts.

(** ** consolidate_memories *)

Section MonadFacts.

Context {A B : Type}.

Lemma bind_ok (m : M A) (f : A -> M B) (w w1 : World) (a : A) :
  m w = (Ok a, w1) -> bind m f w = f a w1.
Proof. intros H. unfold bind. rewrite H. reflexivity. Qed.

Lemma bind_throw (m : M A) (f : A -> M B) (w w1 : World) (e : Exn) :
  m w = (Throw e, w1) -> bind m f w = (Throw e, w1).
Proof. intros H. unfold bind. rewrite H. reflexivity. Qed.

Lemma bind_inv (m : M A) (f : A -> M B) (w w' : World) (b : B) :
  bind m f w = (Ok b, w') ->
  exists a w1, m w = (Ok a, w1) /\ f a w1 = (Ok b, w').
Proof.
  unfold bind. destruct (m w) as [[a | e] w1]; [| discriminate].
  intros H. exists a, w1. split; [reflexivity | exact H].
Qed.

End MonadFacts.

Section ConsolidateFacts.

Context {outside : Outside}.

Lemma phase_eta (p : Phase.t) : Phase.make (Phase.candidates p) (Phase.counter p) = p.
Proof. destruct p. reflexivity. Qed.

(** In a dry run the loop of the first phase only collects candidates. *)
Lemma promote_dry (m : Value) (hits : list Pattern.t) (acc : Phase.t) (w : World) :
  for_of hits (promote true m) acc w =
    (Ok (Phase.make
           (Phase.candidates acc ++ map episodic_candidate
                                      (List.filter (meets_threshold m) hits))%list
           (Phase.counter acc)), w).
Proof.
  revert acc. induction hits as [| p hits IH]; intros acc.
  - cbn. rewrite app_nil_r, phase_eta. reflexivity.
  - cbn [for_of List.filter]. unfold promote at 1.
    fold (meets_threshold m p). fold (episodic_candidate p).
    destruct (meets_threshold m p).
    + cbn [negb]. erewrite bind_ok by reflexivity. rewrite IH.
      cbn [Phase.push Phase.candidates Phase.counter map].
      rewrite <- app_assoc. reflexivity.
    + erewrite bind_ok by reflexivity. apply IH.
Qed.

(** In a real run the loop records the same candidates, whatever the stores
    in between did to the world, and counts one promotion for each. *)
Lemma promote_real (m : Value) (hits : list Pattern.t) (acc acc' : Phase.t) (w w' : World) :
  for_of hits (promote false m) acc w = (Ok acc', w') ->
  Phase.candidates acc' =
    (Phase.candidates acc ++ map episodic_candidate (List.filter (meets_threshold m) hits))%list /\
  Phase.counter acc' = (Phase.counter acc + length (List.filter (meets_threshold m) hits))%nat.
Proof.
  revert acc w. induction hits as [| p hits IH]; intros acc w.
  - cbn. intros [= <- _]. rewrite app_nil_r. split; [reflexivity | lia].
  - cbn [for_of List.filter]. intros H.
    apply bind_inv in H as (acc1 & w1 & Hbody & Hrest).
    apply IH in Hrest as [Hc Hn].
    unfold promote in Hbody.
    fold (meets_threshold m p) in Hbody. fold (episodic_candidate p) in Hbody.
    destruct (meets_threshold m p).
    + cbn [negb] in Hbody.
      apply bind_inv in Hbody as (t & w2 & _ & Hbody).
      apply bind_inv in Hbody as (s & w3 & _ & Hret).
      injection Hret as <- _.
      cbn [Phase.incr Phase.push Phase.candidates Phase.counter] in Hc, Hn.
      cbn [map length]. rewrite Hc, Hn, <- app_assoc. split; [reflexivity | lia].
    + injection Hbody as <- _. split; assumption.
Qed.

(** The loop of the second phase never writes; only its counter depends on
    the dry-run flag. *)
Lemma graduate_loop (d : bool) (hits : list Pattern.t) (acc : Phase.t) (w : World) :
  for_of hits (graduate d) acc w =
    (Ok (Phase.make
           (Phase.candidates acc ++ map canonical_candidate (List.filter canonical hits))%list
           (Phase.counter acc + (if d then 0 else length (List.filter canonical hits)))%nat),
     w).
Proof.
  revert acc. induction hits as [| p hits IH]; intros acc.
  - cbn. rewrite app_nil_r. destruct d; rewrite Nat.add_0_r, phase_eta; reflexivity.
  - cbn [for_of List.filter]. unfold graduate at 1.
    fold (canonical p). fold (canonical_candidate p).
    destruct (canonical p).
    + destruct d; cbn [negb]; erewrite bind_ok by reflexivity; rewrite IH;
        cbn [Phase.incr Phase.push Phase.candidates Phase.counter map length];
        rewrite <- app_assoc; f_equal; f_equal; f_equal; lia.
    + erewrite bind_ok by reflexivity. apply IH.
Qed.

Lemma consolidateMemories_phases (d : bool) (pt : string) (m : Value) :
  consolidateMemories d pt m =
    (episodic_to_semantic <-
       (if runs_first pt then first_phase d m else ret (Phase.make [] 0)) ;;
     semantic_to_canonical <-
       (if runs_second pt then second_phase d else ret (Phase.make [] 0)) ;;
     ret (Report.make d pt episodic_to_semantic semantic_to_canonical
            (Summary.make
               (length (Phase.candidates episodic_to_semantic))
               (Phase.counter episodic_to_semantic)
               (length (Phase.candidates semantic_to_canonical))
               "Canonical graduation to knowledge/ requires manual review and markdown export"))).
Proof. reflexivity. Qed.

End ConsolidateFacts.

Section PhaseFacts.

Context {outside : Outside}.

Lemma runs_first_iff (pt : string) :
  runs_first pt = true <-> pt = "episodic_to_semantic" \/ pt = "both".
Proof.
  unfold runs_first. rewrite orb_true_iff, !String.eqb_eq. reflexivity.
Qed.

Lemma runs_second_iff (pt : string) :
  runs_second pt = true <-> pt = "semantic_to_canonical" \/ pt = "both".
Proof.
  unfold runs_second. rewrite orb_true_iff, !String.eqb_eq. reflexivity.
Qed.

Lemma runs_both (pt : string) :
  runs_first pt = true -> runs_second pt = true -> pt = "both".
Proof.
  rewrite runs_first_iff, runs_second_iff.
  intros [-> | ->] [H | H]; try reflexivity; discriminate.
Qed.

Lemma no_write_enumerated (tier : string) (w : World) : no_write w (enumerated tier w).
Proof.
  eapply no_write_trans; [apply no_write_asked | apply no_write_searched].
Qed.

Lemma first_phase_dry (m : Value) (w : World) (e : Embedding) :
  embeddings "*" = Some e ->
  exists found,
    searchPatterns "*" 1000 None (Some "episodic") w = (Ok found, enumerated "episodic" w) /\
    first_phase true m w =
      (Ok (Phase.make
             (map episodic_candidate (List.filter (meets_threshold m) (SearchResult.results found)))
             0),
       enumerated "episodic" w).
Proof.
  intros He.
  destruct (searchPatterns_ok "*" 1000 None (Some "episodic") e w He) as (ps & Hs).
  eexists. split; [exact Hs |].
  unfold first_phase. rewrite (bind_ok _ _ _ _ _ Hs). apply promote_dry.
Qed.

Lemma first_phase_down (d : bool) (m : Value) (w : World) :
  embeddings "*" = None -> first_phase d m w = (Throw EmbeddingError, asked "*" w).
Proof.
  intros He. unfold first_phase.
  apply bind_throw, searchPatterns_fails, He.
Qed.

Lemma first_phase_real (m : Value) (w w' : World) (ph : Phase.t) :
  first_phase false m w = (Ok ph, w') ->
  exists found e,
    embeddings "*" = Some e /\
    searchPatterns "*" 1000 None (Some "episodic") w = (Ok found, enumerated "episodic" w) /\
    Phase.candidates ph =
      map episodic_candidate (List.filter (meets_threshold m) (SearchResult.results found)) /\
    Phase.counter ph = length (List.filter (meets_threshold m) (SearchResult.results found)).
Proof.
  intros H. unfold first_phase in H.
  apply bind_inv in H as (found & w1 & Hs & Hloop).
  destruct (embeddings "*") as [e |] eqn:He.
  - destruct (searchPatterns_ok "*" 1000 None (Some "episodic") e w He) as (ps & Hs').
    rewrite Hs' in Hs. injection Hs as <- <-.
    apply promote_real in Hloop as [Hc Hn].
    eexists. exists e. split; [reflexivity |]. split; [exact Hs' |].
    split; assumption.
  - rewrite (searchPatterns_fails _ _ _ _ _ He) in Hs. discriminate.
Qed.

Lemma second_phase_ok (d : bool) (w : World) (e : Embedding) :
  embeddings "*" = Some e ->
  exists found,
    searchPatterns "*" 1000 None (Some "semantic") w = (Ok found, enumerated "semantic" w) /\
    second_phase d w =
      (Ok (Phase.make
             (map canonical_candidate (List.filter canonical (SearchResult.results found)))
             (if d then 0 else length (List.filter canonical (SearchResult.results found)))),
       enumerated "semantic" w).
Proof.
  intros He.
  destruct (searchPatterns_ok "*" 1000 None (Some "semantic") e w He) as (ps & Hs).
  eexists. split; [exact Hs |].
  unfold second_phase. rewrite (bind_ok _ _ _ _ _ Hs). apply graduate_loop.
Qed.

Lemma second_phase_down (d : bool) (w : World) :
  embeddings "*" = None -> second_phase d w = (Throw EmbeddingError, asked "*" w).
Proof.
  intros He. unfold second_phase.
  apply bind_throw, searchPatterns_fails, He.
Qed.

(** A dry run writes nothing and counts nothing. *)
Lemma dry_run_no_write (pt : string) (m : Value) (w w' : World) (r : Result Report.t) :
  consolidateMemories true pt m w = (r, w') ->
  no_write w w' /\
  forall dry, r = Ok dry ->
    Phase.counter (Report.episodic_to_semantic dry) = 0%nat /\
    Phase.counter (Report.semantic_to_canonical dry) = 0%nat.
Proof.
  rewrite consolidateMemories_phases.
  destruct (embeddings "*") as [e |] eqn:He.
  - assert (H1 : exists ph1 w1,
              (if runs_first pt then first_phase true m else ret (Phase.make [] 0)) w
                = (Ok ph1, w1) /\ no_write w w1 /\ Phase.counter ph1 = 0%nat).
    { destruct (runs_first pt).
      - destruct (first_phase_dry m w e He) as (found & _ & ->).
        eexists. eexists. split; [reflexivity |].
        split; [apply no_write_enumerated | reflexivity].
      - eexists. eexists. split; [reflexivity |].
        split; [apply no_write_refl | reflexivity]. }
    destruct H1 as (ph1 & w1 & Hrun1 & Hw1 & Hn1).
    rewrite (bind_ok _ _ _ _ _ Hrun1).
    assert (H2 : exists ph2 w2,
              (if runs_second pt then second_phase true else ret (Phase.make [] 0)) w1
                = (Ok ph2, w2) /\ no_write w1 w2 /\ Phase.counter ph2 = 0%nat).
    { destruct (runs_second pt).
      - destruct (second_phase_ok true w1 e He) as (found & _ & ->).
        eexists. eexists. split; [reflexivity |].
        split; [apply no_write_enumerated | reflexivity].
      - eexists. eexists. split; [reflexivity |].
        split; [apply no_write_refl | reflexivity]. }
    destruct H2 as (ph2 & w2 & Hrun2 & Hw2 & Hn2).
    rewrite (bind_ok _ _ _ _ _ Hrun2).
    intros [= <- <-]. split; [eapply no_write_trans; eassumption |].
    intros dry [= <-]. split; assumption.
  - destruct (runs_first pt).
    + rewrite (bind_throw _ _ _ _ _ (first_phase_down true m w He)).
      intros [= <- <-]. split; [apply no_write_asked | discriminate].
    + erewrite bind_ok by reflexivity.
      destruct (runs_second pt).
      * rewrite (bind_throw _ _ _ _ _ (second_phase_down true w He)).
        intros [= <- <-]. split; [apply no_write_asked | discriminate].
      * erewrite bind_ok by reflexivity.
        intros [= <- <-]. split; [apply no_write_refl |].
        intros dry [= <-]. split; reflexivity.
Qed.

(** The candidates of a real run are those of the dry run on the same world:
    always in the first phase, and in the second phase when the first does
    not run before it. *)
Lemma dry_run_same_candidates (pt : string) (m : Value) (w : World) (real : Report.t) :
  (consolidateMemories false pt m w).1 = Ok real ->
  exists dry, (consolidateMemories true pt m w).1 = Ok dry /\
    Phase.candidates (Report.episodic_to_semantic dry)
      = Phase.candidates (Report.episodic_to_semantic real) /\
    (pt <> "both" ->
     Phase.candidates (Report.semantic_to_canonical dry)
       = Phase.candidates (Report.semantic_to_canonical real)).
Proof.
  rewrite !consolidateMemories_phases. intros H.
  destruct (bind _ _ w) as [r w'] eqn:Hrun in H. cbn [fst] in H. subst r.
  apply bind_inv in Hrun as (ph1 & w1 & Hrun1 & Hrun).
  apply bind_inv in Hrun as (ph2 & w2 & Hrun2 & Hret).
  injection Hret as <- _.
  cbn [Report.episodic_to_semantic Report.semantic_to_canonical].
  destruct (runs_first pt) eqn:Hfirst.
  - apply first_phase_real in Hrun1 as (found & e & He & Hs & Hc1 & _).
    destruct (first_phase_dry m w e He) as (found' & Hs' & Hdry1).
    rewrite Hs in Hs'. injection Hs' as <-.
    rewrite (bind_ok _ _ _ _ _ Hdry1).
    destruct (runs_second pt) eqn:Hsecond.
    + destruct (second_phase_ok true (enumerated "episodic" w) e He) as (found2 & _ & Hdry2).
      rewrite (bind_ok _ _ _ _ _ Hdry2).
      eexists. split; [reflexivity |]. split; [symmetry; exact Hc1 |].
      intros Hpt. contradict Hpt. apply runs_both; assumption.
    + erewrite bind_ok by reflexivity.
      injection Hrun2 as <- _.
      eexists. split; [reflexivity |]. split; [symmetry; exact Hc1 |].
      intros _. reflexivity.
  - injection Hrun1 as <- <-.
    erewrite bind_ok by reflexivity.
    destruct (runs_second pt) eqn:Hsecond.
    + destruct (embeddings "*") as [e |] eqn:He.
      * destruct (second_phase_ok false w e He) as (found & Hs & Hreal2).
        destruct (second_phase_ok true w e He) as (found' & Hs' & Hdry2).
        rewrite Hs in Hs'. injection Hs' as <-.
        rewrite Hreal2 in Hrun2. injection Hrun2 as <- _.
        rewrite (bind_ok _ _ _ _ _ Hdry2).
        eexists. split; [reflexivity |]. split; reflexivity.
      * rewrite (second_phase_down false w He) in Hrun2. discriminate.
    + injection Hrun2 as <- _.
      erewrite bind_ok by reflexivity.
      eexists. split; [reflexivity |]. split; reflexivity.
Qed.

(** C4, as amended.  A dry run writes nothing to the store, makes no write
    call and leaves [promoted] and [graduated] at 0.  On the same world, the
    first phase of a dry run and of a real run record the same candidates,
    and so does the second phase when [promotion_type] is not ["both"]: with
    ["both"], the second phase of a real run enumerates the store after the
    first phase has written to it. *)
Theorem dry_run_previews (pt : string) (m : Value) (w : World) :
  (forall r w', consolidateMemories true pt m w = (r, w') ->
     no_write w w' /\
     forall dry, r = Ok dry ->
       Phase.counter (Report.episodic_to_semantic dry) = 0%nat /\
       Phase.counter (Report.semantic_to_canonical dry) = 0%nat) /\
  (forall real, (consolidateMemories false pt m w).1 = Ok real ->
     exists dry, (consolidateMemories true pt m w).1 = Ok dry /\
       Phase.candidates (Report.episodic_to_semantic dry)
         = Phase.candidates (Report.episodic_to_semantic real) /\
       (pt <> "both" ->
        Phase.candidates (Report.semantic_to_canonical dry)
          = Phase.candidates (Report.semantic_to_canonical real))).
Proof.
  split.
  - intros r w'. apply dry_run_no_write.
  - apply dry_run_same_candidates.
Qed.

End PhaseFacts.

Section ThresholdFacts.

Context {outside : Outside}.

Lemma Qle_bool_zero (m n : Q) : Qeq_bool n 0 = true -> Qle_bool m 0 = Qle_bool m n.
Proof.
  intros H. apply Qeq_bool_iff in H.
  destruct (Qle_bool m n) eqn:Hn.
  - apply Qle_bool_iff. apply Qle_bool_iff in Hn. rewrite <- H. exact Hn.
  - destruct (Qle_bool m 0) eqn:H0; [| reflexivity].
    apply Qle_bool_iff in H0. rewrite <- H in H0. apply Qle_bool_iff in H0. congruence.
Qed.

(** On a numeric or absent evidence count the test of the first phase is
    [min_evidence <= evidence_count], an absent count being 0. *)
Lemma meets_threshold_numeric (m : Q) (p : Pattern.t) :
  numeric_evidence p -> meets_threshold (VNum m) p = Qle_bool m (evidence p).
Proof.
  unfold numeric_evidence, meets_threshold, evidence.
  destruct (Pattern.metadata p !! "evidence_count") as [[| b | n | | s | t | l] |];
    try contradiction; intros _.
  - cbn [or_else truthy]. destruct (Qeq_bool n 0) eqn:Hz; cbn [negb ge ToNumber].
    + apply Qle_bool_zero, Hz.
    + reflexivity.
  - reflexivity.
Qed.

Lemma filter_meets_threshold (m : Q) (hits : list Pattern.t) :
  Forall numeric_evidence hits ->
  List.filter (meets_threshold (VNum m)) hits
    = List.filter (fun p => Qle_bool m (evidence p)) hits.
Proof.
  induction 1 as [| p hits Hp _ IH]; [reflexivity |].
  cbn [List.filter]. rewrite (meets_threshold_numeric m p Hp), IH. reflexivity.
Qed.

Lemma first_phase_candidates (d : bool) (m : Value) (w w' : World) (ph : Phase.t) :
  first_phase d m w = (Ok ph, w') ->
  exists found,
    (searchPatterns "*" 1000 None (Some "episodic") w).1 = Ok found /\
    Phase.candidates ph =
      map episodic_candidate (List.filter (meets_threshold m) (SearchResult.results found)).
Proof.
  destruct d.
  - destruct (embeddings "*") as [e |] eqn:He.
    + destruct (first_phase_dry m w e He) as (found & Hs & ->).
      intros [= <- _]. exists found. rewrite Hs. split; reflexivity.
    + rewrite (first_phase_down true m w He). discriminate.
  - intros H. apply first_phase_real in H as (found & e & _ & Hs & Hc & _).
    exists found. rewrite Hs. split; [reflexivity | exact Hc].
Qed.

(** C5. When the first phase runs, dry or not, the candidates it records are
    the enumerated episodic patterns whose [evidence_count] is at least
    [min_evidence], in the order of the enumeration, a pattern without an
    [evidence_count] counting as 0: a count of 5 passes a threshold of 5, a
    count of 4 does not. *)
Theorem promotion_threshold (dryRun : bool) (pt : string) (m : Q) (w : World)
    (found : SearchResult.t) (report : Report.t) :
  pt = "episodic_to_semantic" \/ pt = "both" ->
  (searchPatterns "*" 1000 None (Some "episodic") w).1 = Ok found ->
  Forall numeric_evidence (SearchResult.results found) ->
  (consolidateMemories dryRun pt (VNum m) w).1 = Ok report ->
  Phase.candidates (Report.episodic_to_semantic report) =
    map episodic_candidate
      (List.filter (fun p => Qle_bool m (evidence p)) (SearchResult.results found)) /\
  (forall p, Pattern.metadata p !! "evidence_count" = Some (VNum 5) ->
             meets_threshold (VNum 5) p = true) /\
  (forall p, Pattern.metadata p !! "evidence_count" = Some (VNum 4) ->
             meets_threshold (VNum 5) p = false) /\
  (forall p, Pattern.metadata p !! "evidence_count" = None ->
             meets_threshold (VNum m) p = Qle_bool m 0).
Proof.
  intros Hpt Hs Hnum H. split; [| split; [| split]].
  - rewrite consolidateMemories_phases in H.
    destruct (bind _ _ w) as [r w'] eqn:Hrun in H. cbn [fst] in H. subst r.
    apply bind_inv in Hrun as (ph1 & w1 & Hrun1 & Hrun).
    apply bind_inv in Hrun as (ph2 & w2 & _ & Hret).
    injection Hret as <- _. cbn [Report.episodic_to_semantic].
    apply runs_first_iff in Hpt. rewrite Hpt in Hrun1.
    apply first_phase_candidates in Hrun1 as (found' & Hs' & ->).
    rewrite Hs in Hs'. injection Hs' as <-.
    rewrite (filter_meets_threshold m _ Hnum). reflexivity.
  - intros p Hp. unfold meets_threshold. rewrite Hp. reflexivity.
  - intros p Hp. unfold meets_threshold. rewrite Hp. reflexivity.
  - intros p Hp. unfold meets_threshold. rewrite Hp. reflexivity.
Qed.

End ThresholdFacts.

(** ** What is stored, and what a search shows *)

Section StoredFacts.

Context {outside : Outside}.

Lemma enriched_keeps (now : Z) (metadata : Metadata) (key : string) :
  key <> "validation_contexts" -> key <> "source" ->
  key <> "last_validated" -> key <> "created_at" ->
  enriched now metadata !! key = metadata !! key.
Proof.
  intros H1 H2 H3 H4. unfold enriched.
  rewrite !lookup_insert_ne by congruence. reflexivity.
Qed.

(** A successful [storePattern] leaves, under the pattern's key, the metadata
    it was given, enriched and passed through JSON; other keys are as before. *)
Lemma storePattern_stores (category memoryType content : string)
    (metadata : Metadata) (w w' : World) (s : Stored.t) :
  storePattern category memoryType content (Some metadata) w = (Ok s, w') ->
  Stored.pattern_id s = patternId category memoryType content /\
  stored_metadata w' (patternId category memoryType content)
    = Some (JSON_roundtrip <$> enriched (clock w) metadata) /\
  (forall key, key <> patternId category memoryType content ->
               store w' !! key = store w !! key).
Proof.
  destruct (embeddings content) as [e |] eqn:He.
  - rewrite (storePattern_ok _ _ _ _ _ _ He). intros [= <- <-].
    split; [reflexivity |]. unfold stored_metadata.
    destruct (expires_in (resolved_ttl memoryType)) as [n |];
      cbn [expiring written asked store].
    + split.
      * rewrite lookup_alter_eq, lookup_insert_eq. reflexivity.
      * intros key Hkey.
        rewrite lookup_alter_ne, lookup_insert_ne by congruence. reflexivity.
    + split.
      * rewrite lookup_insert_eq. reflexivity.
      * intros key Hkey. rewrite lookup_insert_ne by congruence. reflexivity.
  - unfold storePattern. rewrite (bind_throw _ _ _ _ _ (generateEmbedding_fails _ _ He)).
    discriminate.
Qed.

(** C1, as amended.  [confidence_current] is computed when a search reads a
    pattern, and a search leaves the store as it is.  [storePattern] persists
    the metadata it is given: the stored [confidence] is the given one, and
    the stored record has a [confidence_current] field exactly when the given
    metadata has one.  The promotion of the first phase of consolidate gives
    [storePattern] the metadata of the search result, so the semantic copy
    stores the [confidence_current] that result carries, next to the
    unchanged [confidence]. *)
Theorem confidence_fields_stored (w : World) :
  (forall query k category memoryType,
      store (searchPatterns query k category memoryType w).2 = store w) /\
  (forall category memoryType content metadata s w',
      storePattern category memoryType content (Some metadata) w = (Ok s, w') ->
      exists stored,
        stored_metadata w' (Stored.pattern_id s) = Some stored /\
        stored !! "confidence" = JSON_roundtrip <$> metadata !! "confidence" /\
        stored !! "confidence_current"
          = JSON_roundtrip <$> metadata !! "confidence_current") /\
  (forall minEvidence pattern acc acc' w',
      meets_threshold minEvidence pattern = true ->
      promote false minEvidence pattern acc w = (Ok acc', w') ->
      exists stored,
        stored_metadata w'
          (patternId (Pattern.category pattern) "semantic" (Pattern.content pattern))
          = Some stored /\
        stored !! "confidence"
          = JSON_roundtrip <$> Pattern.metadata pattern !! "confidence" /\
        stored !! "confidence_current"
          = JSON_roundtrip <$> Pattern.metadata pattern !! "confidence_current").
Proof.
  split; [| split].
  - intros query k category memoryType.
    apply (searchPatterns_no_write query k category memoryType w).
  - intros category memoryType content metadata s w' H.
    apply storePattern_stores in H as (-> & Hmd & _).
    eexists. split; [exact Hmd |].
    rewrite !lookup_fmap, !enriched_keeps by discriminate. split; reflexivity.
  - intros minEvidence pattern acc acc' w' Hmeets H.
    unfold promote in H. fold (meets_threshold minEvidence pattern) in H.
    rewrite Hmeets in H. cbn [negb] in H.
    apply bind_inv in H as (t & w1 & Hdate & H). injection Hdate as <- <-.
    apply bind_inv in H as (s & w2 & Hstore & Hret). injection Hret as _ <-.
    apply storePattern_stores in Hstore as (_ & Hmd & _).
    eexists. split; [exact Hmd |].
    rewrite !lookup_fmap, !enriched_keeps by discriminate.
    rewrite !lookup_insert_ne by discriminate. split; reflexivity.
Qed.

End StoredFacts.

(** ** The handler *)

Section HandlerFacts.

Context {outside : Outside}.

Lemma resolved_ttl_unknown (memoryType : string) :
  memoryType <> "semantic" -> memoryType <> "episodic" -> memoryType <> "procedural" ->
  resolved_ttl memoryType = ttl_undefined.
Proof.
  intros H1 H2 H3. unfold resolved_ttl, MEMORY_TYPES.
  cbn [find name SEMANTIC EPISODIC PROCEDURAL].
  apply not_eq_sym, String.eqb_neq in H1, H2, H3. rewrite H1, H2, H3. reflexivity.
Qed.

(** C9, as amended.  The handler checks nothing before it calls out.  A
    [store_pattern] request without [metadata] gets an error response only
    after the embedding service has been asked about the content, and before
    any call to the key-value store.  A [store_pattern] request whose
    [memory_type] is not one of the three tiers is not rejected: the pattern
    is written under [pattern:{memory_type}:...], no expiration is set and
    [ttl_seconds] is undefined.  A request that names an unknown tool is
    rejected before any call. *)
Theorem unvalidated_requests (w : World) :
  (forall category memory_type text,
      exists error,
        CallTool (store_pattern (StoreArgs.make category memory_type text None)) w
          = (Ok (isError error), asked text w)) /\
  (forall category memoryType text metadata e,
      memoryType <> "" -> memoryType <> "semantic" ->
      memoryType <> "episodic" -> memoryType <> "procedural" ->
      embeddings text = Some e ->
      exists h,
        CallTool (store_pattern
                    (StoreArgs.make category (Some memoryType) text (Some metadata))) w
          = (Ok (content (of_store
                   (Stored.make (patternId category memoryType text) memoryType
                      ttl_undefined "stored"))),
             written (patternId category memoryType text) h (asked text w))) /\
  (forall tool, rejected_up_front (unknown_tool tool) w).
Proof.
  split; [| split].
  - intros category memory_type text.
    destruct (storePattern_no_metadata category (str_or memory_type "semantic") text w)
      as (error & Hrun).
    exists error. unfold CallTool, dispatch. cbn [StoreArgs.category StoreArgs.memory_type
      StoreArgs.content StoreArgs.metadata].
    rewrite (bind_throw _ _ _ _ _ Hrun). reflexivity.
  - intros category memoryType text metadata e Hne H1 H2 H3 He.
    eexists. unfold CallTool, dispatch. cbn [StoreArgs.category StoreArgs.memory_type
      StoreArgs.content StoreArgs.metadata str_or].
    apply String.eqb_neq in Hne. rewrite Hne.
    rewrite (bind_ok _ _ _ _ _ (storePattern_ok _ _ _ _ _ _ He)).
    rewrite (resolved_ttl_unknown _ H1 H2 H3). reflexivity.
  - intros tool. eexists. reflexivity.
Qed.

(** C10. At the tool boundary a falsy [min_evidence] (0, null, absent) is
    replaced by 5 before the consolidation runs.  The handler runs
    [consolidateMemories] with the threshold 5; the response and the world
    are those of the call with [min_evidence = 5]; and when the first phase
    runs, the candidates of the report are the enumerated episodic patterns
    with an evidence count of at least 5, and no other pattern is promoted:
    a threshold of zero cannot be asked for. *)
Theorem zero_threshold_is_default
    (dry_run : option Value) (promotion_type : option string)
    (min_evidence : option Value) (w : World) :
  truthy_opt min_evidence = false ->
  dispatch (consolidate_memories
              (ConsolidateArgs.make dry_run promotion_type min_evidence)) w
  = (result <- consolidateMemories (not_false dry_run)
                 (str_or promotion_type "episodic_to_semantic") (VNum 5) ;;
     ret (of_consolidate result)) w /\
  CallTool (consolidate_memories
              (ConsolidateArgs.make dry_run promotion_type min_evidence)) w
  = CallTool (consolidate_memories
                (ConsolidateArgs.make dry_run promotion_type (Some (VNum 5)))) w /\
  (forall found report,
      str_or promotion_type "episodic_to_semantic" = "episodic_to_semantic" \/
      str_or promotion_type "episodic_to_semantic" = "both" ->
      (searchPatterns "*" 1000 None (Some "episodic") w).1 = Ok found ->
      Forall numeric_evidence (SearchResult.results found) ->
      (CallTool (consolidate_memories
                   (ConsolidateArgs.make dry_run promotion_type min_evidence)) w).1
        = Ok (content (of_consolidate report)) ->
      Phase.candidates (Report.episodic_to_semantic report)
        = map episodic_candidate
            (List.filter (fun p => Qle_bool 5 (evidence p)) (SearchResult.results found)) /\
      Phase.counter (Report.episodic_to_semantic report)
        = (if not_false dry_run then 0
           else length (Phase.candidates (Report.episodic_to_semantic report)))%nat).
Proof.
  intros H.
  assert (Hd : or_else min_evidence (VNum 5) = VNum 5).
  { destruct min_evidence as [v |]; [| reflexivity].
    cbn [truthy_opt] in H. cbn [or_else]. rewrite H. reflexivity. }
  split; [| split].
  - unfold dispatch.
    cbn [ConsolidateArgs.dry_run ConsolidateArgs.promotion_type ConsolidateArgs.min_evidence].
    rewrite Hd. reflexivity.
  - unfold CallTool, dispatch.
    cbn [ConsolidateArgs.dry_run ConsolidateArgs.promotion_type ConsolidateArgs.min_evidence].
    rewrite Hd. reflexivity.
  - intros found report Hpt Hs Hnum Hcall.
    unfold CallTool, dispatch in Hcall.
    cbn [ConsolidateArgs.dry_run ConsolidateArgs.promotion_type
         ConsolidateArgs.min_evidence] in Hcall.
    rewrite Hd in Hcall.
    destruct (consolidateMemories (not_false dry_run)
                (str_or promotion_type "episodic_to_semantic") (VNum 5) w)
      as [[r | e] w'] eqn:Hrun.
    2: { rewrite (bind_throw _ _ _ _ _ Hrun) in Hcall. discriminate. }
    rewrite (bind_ok _ _ _ _ _ Hrun) in Hcall. cbn [ret fst] in Hcall.
    injection Hcall as <-.
    rewrite consolidateMemories_phases in Hrun.
    apply bind_inv in Hrun as (ph1 & w1 & Hrun1 & Hrun).
    apply bind_inv in Hrun as (ph2 & w2 & _ & Hret).
    injection Hret as <- _. cbn [Report.episodic_to_semantic].
    apply runs_first_iff in Hpt. rewrite Hpt in Hrun1.
    assert (Hc : Phase.candidates ph1
                 = map episodic_candidate
                     (List.filter (meets_threshold (VNum 5)) (SearchResult.results found))).
    { pose proof Hrun1 as Hrun1'.
      apply first_phase_candidates in Hrun1' as (found' & Hs' & ->).
      rewrite Hs in Hs'. injection Hs' as <-. reflexivity. }
    split; [rewrite Hc, (filter_meets_threshold 5 _ Hnum); reflexivity |].
    destruct (not_false dry_run).
    + destruct (embeddings "*") as [e |] eqn:He.
      * destruct (first_phase_dry (VNum 5) w e He) as (found' & _ & Hdry).
        rewrite Hdry in Hrun1. injection Hrun1 as <- _. reflexivity.
      * rewrite (first_phase_down true (VNum 5) w He) in Hrun1. discriminate.
    + apply first_phase_real in Hrun1 as (found' & e & _ & _ & -> & ->).
      rewrite length_map. reflexivity.
Qed.

End HandlerFacts.

(** * The laws on concrete runs *)

(** C1, refuted as stated: after [store_pattern] of an episodic pattern and,
    thirty days later, a real [consolidate_memories], the semantic copy in
    the store has a [confidence_current] field, holding the value decayed at
    promotion time. *)
Lemma promoted_copy_stores_confidence_current :
  exists stored current,
    stored_metadata
      (world_after (consolidate false "episodic_to_semantic" 5)
         (later thirty_days one_episodic))
      "pattern:semantic:solution:96354" = Some stored /\
    stored !! "confidence_current" = Some (VNum current) /\
    (current == (97 # 100) * (95 # 100))%Q /\
    stored !! "confidence" = Some (VNum (97 # 100)).
Proof.
  eexists. eexists. split; [vm_compute; reflexivity |].
  split; [vm_compute; reflexivity |].
  split; vm_compute; reflexivity.
Qed.

Lemma confidence_fields_stored_witness :
  exists stored,
    stored_metadata one_episodic "pattern:episodic:solution:96354" = Some stored /\
    stored !! "confidence" = Some (VNum (97 # 100)) /\
    stored !! "confidence_current" = None.
Proof.
  destruct (proj1 (proj2 (confidence_fields_stored (outside := lab) (empty_at 1000)))
              "solution" "episodic" "abc" (metadata_of (97 # 100) 25)
              (Stored.make "pattern:episodic:solution:96354" "episodic"
                 (ttl_seconds 7776000) "stored")
              one_episodic)
    as (stored & H1 & H2 & H3).
  - vm_compute. reflexivity.
  - exists stored. split; [exact H1 |]. split; [exact H2 | exact H3].
Defined.



Lemma tier_ttl_law_witness :
  exists s w',
    storePattern (outside := lab) "solution" "episodic" "abc"
      (Some (metadata_of (97 # 100) 25)) (empty_at 1000) = (Ok s, w') /\
    Stored.ttl_seconds s = ttl_seconds 7776000 /\
    w' = one_episodic.
Proof.
  destruct (proj1 (tier_ttl_law (outside := lab) "solution" "abc"
                     (metadata_of (97 # 100) 25) [1%Q] (empty_at 1000) eq_refl))
    as (s & w' & Hrun & Httl & _).
  exists s, w'. split; [exact Hrun |]. split; [exact Httl |].
  revert Hrun. vm_compute. intros [= _ <-]. reflexivity.
Defined.

Lemma pattern_id_deterministic_witness :
  Stored.pattern_id
    (Stored.make "pattern:semantic:failure:96354" "semantic" ttl_null "stored")
  = "pattern:" ++ "semantic" ++ ":" ++ "failure" ++ ":" ++ decimal (digest "abc") /\
  0 <= digest "abc" < 100000000.
Proof.
  destruct (pattern_id_deterministic (outside := lab) "failure" "semantic" "abc"
              (Some (metadata_of 0 1)) (Some (metadata_of 1 9))
              (empty_at 1000) one_episodic
              (Stored.make "pattern:semantic:failure:96354" "semantic" ttl_null "stored")
              (Stored.make "pattern:semantic:failure:96354" "semantic" ttl_null "stored"))
    as (_ & H2 & H3).
  - vm_compute. reflexivity.
  - vm_compute. reflexivity.
  - split; [exact H2 | exact H3].
Defined.

(** C4, refuted as stated: with [promotion_type = "both"] on a store holding
    one episodic pattern of evidence 25 and confidence 0.97, the dry run
    finds no canonical candidate, and the real run finds one, the copy its
    own first phase has just written. *)
Lemma both_phases_real_run_differs :
  exists dry real,
    response_to (consolidate true "both" 5) one_episodic
      = Ok (content (of_consolidate dry)) /\
    response_to (consolidate false "both" 5) one_episodic
      = Ok (content (of_consolidate real)) /\
    Phase.candidates (Report.semantic_to_canonical dry) = [] /\
    map Candidate.pattern_id (Phase.candidates (Report.semantic_to_canonical real))
      = ["pattern:semantic:solution:96354"] /\
    Phase.candidates (Report.semantic_to_canonical dry)
      <> Phase.candidates (Report.semantic_to_canonical real).
Proof.
  eexists. eexists. split; [vm_compute; reflexivity |].
  split; [vm_compute; reflexivity |].
  split; [reflexivity |]. split; [reflexivity |]. discriminate.
Qed.

Lemma dry_run_previews_witness :
  exists dry real,
    (consolidateMemories (outside := lab) true "episodic_to_semantic" (VNum 5)
       three_episodic).1 = Ok dry /\
    (consolidateMemories (outside := lab) false "episodic_to_semantic" (VNum 5)
       three_episodic).1 = Ok real /\
    map Candidate.pattern_id (Phase.candidates (Report.episodic_to_semantic real))
      = ["pattern:episodic:solution:3143346"] /\
    Phase.counter (Report.episodic_to_semantic real) = 1%nat /\
    Phase.candidates (Report.episodic_to_semantic dry)
      = Phase.candidates (Report.episodic_to_semantic real) /\
    Phase.candidates (Report.semantic_to_canonical dry)
      = Phase.candidates (Report.semantic_to_canonical real).
Proof.
  destruct (consolidateMemories (outside := lab) false "episodic_to_semantic" (VNum 5)
              three_episodic) as [[real | e] w'] eqn:Hreal;
    [| revert Hreal; vm_compute; discriminate].
  destruct (proj2 (dry_run_previews (outside := lab) "episodic_to_semantic" (VNum 5)
                     three_episodic) real)
    as (dry & Hdry & Ha & Hb).
  - rewrite Hreal. reflexivity.
  - exists dry, real. split; [exact Hdry |]. split; [reflexivity |].
    split; [revert Hreal; vm_compute; intros [= <- _]; reflexivity |].
    split; [revert Hreal; vm_compute; intros [= <- _]; reflexivity |].
    split; [exact Ha | apply Hb; discriminate].
Defined.

(** The boundary of the threshold: of three episodic patterns with evidence
    5, 4 and none, a threshold of 5 keeps the first only. *)
Lemma promotion_threshold_witness :
  exists found report,
    (searchPatterns (outside := lab) "*" 1000 None (Some "episodic") three_episodic).1
      = Ok found /\
    map evidence (SearchResult.results found) = [5%Q; 4%Q; 0%Q] /\
    (consolidateMemories (outside := lab) true "episodic_to_semantic" (VNum 5)
       three_episodic).1 = Ok report /\
    Phase.candidates (Report.episodic_to_semantic report)
      = map episodic_candidate
          (List.filter (fun p => Qle_bool 5 (evidence p)) (SearchResult.results found)) /\
    map Candidate.pattern_id (Phase.candidates (Report.episodic_to_semantic report))
      = ["pattern:episodic:solution:3143346"].
Proof.
  destruct (searchPatterns (outside := lab) "*" 1000 None (Some "episodic")
              three_episodic) as [[found | e] w1] eqn:Hfound;
    [| revert Hfound; vm_compute; discriminate].
  destruct (consolidateMemories (outside := lab) true "episodic_to_semantic" (VNum 5)
              three_episodic) as [[report | e] w2] eqn:Hreport;
    [| revert Hreport; vm_compute; discriminate].
  exists found, report. split; [reflexivity |].
  split; [revert Hfound; vm_compute; intros [= <- _]; reflexivity |].
  split; [reflexivity |].
  split.
  - apply (proj1 (promotion_threshold (outside := lab) true "episodic_to_semantic" 5
                    three_episodic found report
                    (or_introl eq_refl)
                    ltac:(rewrite Hfound; reflexivity)
                    ltac:(revert Hfound; vm_compute; intros [= <- _];
                          repeat constructor)
                    ltac:(rewrite Hreport; reflexivity))).
  - revert Hreport. vm_compute. intros [= <- _]. reflexivity.
Defined.

(** C6 at the failing input: a pattern stored by [store_pattern] with
    [confidence = 0] is found by [search_patterns] with its [confidence] and
    [last_validated] fields, and with neither [confidence_current] nor
    [confidence_original]. *)
Theorem zero_confidence_hit_not_decayed :
  exists found pattern,
    response_to (search_patterns (SearchArgs.make "abc" None None None)) zero_confidence
      = Ok (content (of_search found)) /\
    SearchResult.results found = [pattern] /\
    Pattern.metadata pattern !! "confidence" = Some (VNum 0) /\
    Pattern.metadata pattern !! "last_validated" = Some (VDate 1000) /\
    Pattern.metadata pattern !! "confidence_current" = None /\
    Pattern.metadata pattern !! "confidence_original" = None.
Proof.
  eexists. eexists. split; [vm_compute; reflexivity |].
  split; [reflexivity |]. repeat split; vm_compute; reflexivity.
Qed.

(** C9, refuted as stated: a [store_pattern] request without [metadata] is
    answered with an error after the embedding service has been called, and
    one with an unrecognized [memory_type] is served. *)
Lemma malformed_store_not_rejected_up_front :
  ~ rejected_up_front (outside := lab)
      (store_pattern (StoreArgs.make "solution" None "abc" None)) (empty_at 1000) /\
  calls (world_after (store_pattern (StoreArgs.make "solution" None "abc" None))
           (empty_at 1000)) = [embeddings_create "abc"] /\
  ~ rejected_up_front (outside := lab)
      (store_pattern
         (StoreArgs.make "solution" (Some "bogus") "abc" (Some (metadata_of 1 1))))
      (empty_at 1000) /\
  calls (world_after
           (store_pattern
              (StoreArgs.make "solution" (Some "bogus") "abc" (Some (metadata_of 1 1))))
           (empty_at 1000))
    = [HSET "pattern:bogus:solution:96354"; embeddings_create "abc"].
Proof.
  split; [| split; [| split]].
  - intros (error & H). revert H. vm_compute. discriminate.
  - reflexivity.
  - intros (error & H). revert H. vm_compute. discriminate.
  - reflexivity.
Qed.

Lemma unvalidated_requests_witness :
  exists h,
    CallTool (outside := lab)
      (store_pattern
         (StoreArgs.make "solution" (Some "bogus") "abc" (Some (metadata_of 1 1))))
      (empty_at 1000)
    = (Ok (content (of_store
             (Stored.make "pattern:bogus:solution:96354" "bogus" ttl_undefined "stored"))),
       written "pattern:bogus:solution:96354" h (asked "abc" (empty_at 1000))).
Proof.
  apply (proj1 (proj2 (unvalidated_requests (outside := lab) (empty_at 1000)))
           "solution" "bogus" "abc" (metadata_of 1 1) [1%Q]);
    first [discriminate | reflexivity].
Defined.

Lemma three_episodic_enumeration_run :
  searchPatterns (outside := lab) "*" 1000 None (Some "episodic") three_episodic
  = (Ok three_episodic_found, three_episodic_enumeration.2).
Proof. vm_compute. reflexivity. Qed.

Lemma zero_threshold_call_run :
  CallTool (outside := lab)
    (consolidate_memories
       (ConsolidateArgs.make (Some (VBool false)) None (Some (VNum 0))))
    three_episodic
  = (Ok (content (of_consolidate zero_threshold_report)), zero_threshold_call.2).
Proof. vm_compute. reflexivity. Qed.

(** C10 on a run: with [min_evidence = 0] a real consolidation of three
    episodic patterns of evidence 5, 4 and none promotes the first only. *)
Lemma zero_threshold_is_default_witness :
  map evidence (SearchResult.results three_episodic_found) = [5%Q; 4%Q; 0%Q] /\
  Phase.candidates (Report.episodic_to_semantic zero_threshold_report)
    = map episodic_candidate
        (List.filter (fun p => Qle_bool 5 (evidence p))
           (SearchResult.results three_episodic_found)) /\
  map Candidate.pattern_id
    (Phase.candidates (Report.episodic_to_semantic zero_threshold_report))
    = ["pattern:episodic:solution:3143346"] /\
  Phase.counter (Report.episodic_to_semantic zero_threshold_report) = 1%nat.
Proof.
  destruct (proj2 (proj2 (zero_threshold_is_default (outside := lab)
                            (Some (VBool false)) None (Some (VNum 0)) three_episodic
                            eq_refl))
              three_episodic_found zero_threshold_report
              (or_introl eq_refl)
              ltac:(rewrite three_episodic_enumeration_run; reflexivity)
              ltac:(vm_compute; repeat constructor)
              ltac:(rewrite zero_threshold_call_run; reflexivity))
    as [Hc Hn].
  split; [reflexivity |]. split; [exact Hc |].
  split; [reflexivity |]. rewrite Hn. reflexivity.
Defined.

Example zero_threshold_promotes_nothing_more :
  exists report,
    response_to
      (consolidate_memories (ConsolidateArgs.make None None (Some (VNum 0))))
      three_episodic = Ok (content (of_consolidate report)) /\
    map Candidate.pattern_id (Phase.candidates (Report.episodic_to_semantic report))
      = ["pattern:episodic:solution:3143346"].
Proof.
  eexists. split; [vm_compute; reflexivity | reflexivity].
Qed.

(** * More of the code *)

(** ** The string hash *)

Lemma ToInt32_shift (z : Z) : exists k, ToInt32 z = z + k * 2 ^ 32.
Proof.
  unfold ToInt32. exists (- ((z + 2 ^ 31) / 2 ^ 32)).
  pose proof (Z.div_mod (z + 2 ^ 31) (2 ^ 32) ltac:(lia)). lia.
Qed.

Lemma ToInt32_add_mul (z k : Z) : ToInt32 (z + k * 2 ^ 32) = ToInt32 z.
Proof.
  unfold ToInt32.
  replace (z + k * 2 ^ 32 + 2 ^ 31) with (z + 2 ^ 31 + k * 2 ^ 32) by lia.
  rewrite Z_mod_plus_full. reflexivity.
Qed.

Lemma hashCode_fold (str : string) :
  hashCode str = fold_left hash_step (code_units str) 0.
Proof. unfold hashCode, hash_step. reflexivity. Qed.

Lemma fold_left_step {A B : Type} (f : A -> B -> A) (x : B) (l : list B) (a : A) :
  fold_left f (x :: l) a = fold_left f l (f a x).
Proof. reflexivity. Qed.

Lemma hash_step_31 (h c : Z) : hash_step (ToInt32 h) c = ToInt32 (31 * h + c).
Proof.
  unfold hash_step, band, shl. rewrite Z.land_diag, Z.shiftl_mul_pow2 by lia.
  destruct (ToInt32_shift h) as (k1 & H1).
  destruct (ToInt32_shift (ToInt32 h)) as (k0 & H0).
  destruct (ToInt32_shift (ToInt32 (ToInt32 h) * 2 ^ 5)) as (k2 & H2).
  destruct (ToInt32_shift (ToInt32 (ToInt32 (ToInt32 h) * 2 ^ 5) - ToInt32 h + c))
    as (k3 & H3).
  rewrite H3, H2, H0, H1.
  replace ((h + k1 * 2 ^ 32 + k0 * 2 ^ 32) * 2 ^ 5 + k2 * 2 ^ 32 - (h + k1 * 2 ^ 32) + c
           + k3 * 2 ^ 32)
    with (31 * h + c + (32 * k1 + 32 * k0 + k2 - k1 + k3) * 2 ^ 32) by lia.
  apply ToInt32_add_mul.
Qed.

Lemma hash_fold_31 (l : list Z) (p : Z) :
  fold_left hash_step l (ToInt32 p) = ToInt32 (fold_left (fun h c => 31 * h + c) l p).
Proof.
  revert p. induction l as [| c l IH]; intros p; [reflexivity |].
  rewrite !fold_left_step, hash_step_31. apply IH.
Qed.

(** X1. [hashCode] is the polynomial hash in 31 over the code units of the
    string (the hash of Java strings), wrapped to a signed 32-bit integer:
    the shift, the subtraction and the [&] of the loop amount to
    [31 * hash + char] modulo 2^32. *)
Theorem hashCode_is_poly31 (str : string) :
  hashCode str = ToInt32 (poly31 (code_units str)).
Proof.
  rewrite hashCode_fold. unfold poly31. rewrite <- hash_fold_31. reflexivity.
Qed.

Lemma hashCode_int32 (str : string) : - 2 ^ 31 <= hashCode str < 2 ^ 31.
Proof.
  rewrite hashCode_fold. change 0 with (ToInt32 0). rewrite hash_fold_31.
  apply ToInt32_range.
Qed.

(** ** store_pattern: what one call writes *)

Section StoreMore.

Context {outside : Outside}.

Lemma storePattern_inv (category memoryType text : string)
    (metadata : option Metadata) (w w' : World) (s : Stored.t) :
  storePattern category memoryType text metadata w = (Ok s, w') ->
  exists md e,
    metadata = Some md /\ embeddings text = Some e /\
    s = Stored.make (patternId category memoryType text) memoryType
          (resolved_ttl memoryType) "stored" /\
    clock w' = clock w /\
    store w' = <[patternId category memoryType text :=
                   entry_written category memoryType text md e w]> (store w) /\
    calls w' = (match tier_expiration memoryType with
                | Some n => [EXPIRE (patternId category memoryType text) n]
                | None => []
                end ++ HSET (patternId category memoryType text)
                  :: embeddings_create text :: calls w)%list.
Proof.
  destruct metadata as [md |].
  - destruct (embeddings text) as [e |] eqn:He.
    + rewrite (storePattern_ok _ _ _ _ _ _ He). intros [= <- <-].
      exists md, e. split; [reflexivity |]. split; [reflexivity |].
      split; [reflexivity |].
      unfold entry_written, tier_expiration.
      destruct (expires_in (resolved_ttl memoryType)) as [n |];
        cbn [expiring written asked store clock calls app].
      * rewrite alter_insert_eq. repeat split; reflexivity.
      * repeat split; reflexivity.
    + unfold storePattern. rewrite (bind_throw _ _ _ _ _ (generateEmbedding_fails _ _ He)).
      discriminate.
  - destruct (storePattern_no_metadata category memoryType text w) as (e & ->).
    discriminate.
Qed.

Lemma storePattern_throws (category memoryType text : string)
    (metadata : option Metadata) (w w' : World) (e : Exn) :
  storePattern category memoryType text metadata w = (Throw e, w') ->
  w' = asked text w.
Proof.
  destruct metadata as [md |].
  - destruct (embeddings text) as [v |] eqn:He.
    + rewrite (storePattern_ok _ _ _ _ _ _ He). discriminate.
    + unfold storePattern. rewrite (bind_throw _ _ _ _ _ (generateEmbedding_fails _ _ He)).
      intros [= _ <-]. reflexivity.
  - destruct (storePattern_no_metadata category memoryType text w) as (e' & ->).
    intros [= _ <-]. reflexivity.
Qed.

(** X2. When [storePattern] throws, whether the embedding service failed or
    the metadata is missing, nothing has been written: the store is the one
    before the call and no [HSET] or [EXPIRE] was sent. *)
Theorem storePattern_fails_clean (category memoryType text : string)
    (metadata : option Metadata) (w w' : World) (e : Exn) :
  storePattern category memoryType text metadata w = (Throw e, w') ->
  no_write w w' /\ w' = asked text w.
Proof.
  intros H. apply storePattern_throws in H as ->.
  split; [apply no_write_asked | reflexivity].
Qed.

(** X3. A successful [storePattern] writes one key: every other key of the
    store keeps its hash and its expiration, and the clock is not moved. *)
Theorem storePattern_writes_one_key (category memoryType text : string)
    (metadata : option Metadata) (w w' : World) (s : Stored.t) :
  storePattern category memoryType text metadata w = (Ok s, w') ->
  is_Some (store w' !! Stored.pattern_id s) /\
  (forall key, key <> Stored.pattern_id s -> store w' !! key = store w !! key) /\
  dom (store w') = {[Stored.pattern_id s]} ∪ dom (store w).
Proof.
  intros H. apply storePattern_inv in H as (md & e & _ & _ & -> & _ & -> & _).
  cbn [Stored.pattern_id]. split; [| split].
  - rewrite lookup_insert_eq. eexists. reflexivity.
  - intros key Hkey. rewrite lookup_insert_ne by congruence. reflexivity.
  - apply dom_insert_L.
Qed.

(** X4. The time stamps and defaults of the stored metadata.  Whatever the
    caller put under [created_at] and [last_validated], the stored record
    carries the instant of the call under both; [source] is the given one
    when it is truthy and ["unknown"] otherwise; [validation_contexts] is the
    given one when truthy and the empty array otherwise; every other field is
    stored as given. *)
Theorem storePattern_enriches (category memoryType text : string)
    (metadata : Metadata) (w w' : World) (s : Stored.t) :
  storePattern category memoryType text (Some metadata) w = (Ok s, w') ->
  exists stored,
    stored_metadata w' (Stored.pattern_id s) = Some stored /\
    stored !! "created_at" = Some (VDate (clock w)) /\
    stored !! "last_validated" = Some (VDate (clock w)) /\
    stored !! "source"
      = Some (JSON_roundtrip (or_else (metadata !! "source") (VStr "unknown"))) /\
    stored !! "validation_contexts"
      = Some (JSON_roundtrip (or_else (metadata !! "validation_contexts") (VList []))) /\
    (forall key, key <> "created_at" -> key <> "last_validated" ->
                 key <> "source" -> key <> "validation_contexts" ->
                 stored !! key = JSON_roundtrip <$> metadata !! key).
Proof.
  intros H. apply storePattern_stores in H as (-> & Hmd & _).
  eexists. split; [exact Hmd |].
  rewrite !lookup_fmap. unfold enriched.
  split; [| split; [| split; [| split]]].
  - rewrite !lookup_insert_ne by discriminate. rewrite lookup_insert_eq. reflexivity.
  - rewrite !lookup_insert_ne by discriminate. rewrite lookup_insert_eq. reflexivity.
  - rewrite lookup_insert_ne by discriminate. rewrite lookup_insert_eq. reflexivity.
  - rewrite lookup_insert_eq. reflexivity.
  - intros key H1 H2 H3 H4. rewrite lookup_fmap.
    rewrite !lookup_insert_ne by congruence. reflexivity.
Qed.

(** X5. Two contents with the same digest share a key: stored one after the
    other under the same category and memory type, the second replaces the
    first, with no error.  After the second call the key holds the second
    content and the store has no more keys than after the first. *)
Theorem digest_collision_overwrites (category memoryType text1 text2 : string)
    (metadata1 metadata2 : option Metadata) (w w1 w2 : World) (s1 s2 : Stored.t) :
  digest text1 = digest text2 ->
  storePattern category memoryType text1 metadata1 w = (Ok s1, w1) ->
  storePattern category memoryType text2 metadata2 w1 = (Ok s2, w2) ->
  Stored.pattern_id s2 = Stored.pattern_id s1 /\
  (Hash.content <$> (fields <$> store w2 !! Stored.pattern_id s1)) = Some text2 /\
  dom (store w2) = dom (store w1).
Proof.
  intros Hd H1 H2.
  apply storePattern_inv in H1 as (md1 & e1 & _ & _ & -> & _ & Hs1 & _).
  apply storePattern_inv in H2 as (md2 & e2 & _ & _ & -> & _ & Hs2 & _).
  cbn [Stored.pattern_id].
  assert (Hkey : patternId category memoryType text2 = patternId category memoryType text1)
    by (unfold patternId; rewrite Hd; reflexivity).
  split; [exact Hkey |]. rewrite Hs2, Hkey. split.
  - rewrite lookup_insert_eq. reflexivity.
  - rewrite dom_insert_L, Hs1, dom_insert_L. set_solver.
Qed.

End StoreMore.

Lemma digest_collision_overwrites_witness :
  "Aa" <> "BB" /\
  exists s1 w1 s2 w2,
    storePattern (outside := lab) "solution" "semantic" "Aa"
      (Some (metadata_of 1 1)) (empty_at 1000) = (Ok s1, w1) /\
    storePattern (outside := lab) "solution" "semantic" "BB"
      (Some (metadata_of 1 2)) w1 = (Ok s2, w2) /\
    Stored.pattern_id s2 = Stored.pattern_id s1 /\
    (Hash.content <$> (fields <$> store w2 !! Stored.pattern_id s1)) = Some "BB".
Proof.
  split; [discriminate |].
  pose proof (storePattern_ok (outside := lab) "solution" "semantic" "Aa"
                (metadata_of 1 1) [1%Q] (empty_at 1000) eq_refl) as H1.
  cbv zeta in H1.
  match type of H1 with _ = (_, ?w) => set (w1 := w) in * end.
  pose proof (storePattern_ok (outside := lab) "solution" "semantic" "BB"
                (metadata_of 1 2) [1%Q] w1 eq_refl) as H2.
  cbv zeta in H2.
  destruct (digest_collision_overwrites (outside := lab) "solution" "semantic" "Aa" "BB"
              _ _ _ _ _ _ _ eq_refl H1 H2) as (Hid & Hcontent & _).
  eexists. eexists. eexists. eexists.
  split; [exact H1 |]. split; [exact H2 |]. split; [exact Hid | exact Hcontent].
Defined.

(** ** The tier invariant *)

Section TierFacts.

Context {outside : Outside}.

Lemma preserves_ret {A : Type} (P : World -> Prop) (a : A) : preserves P (ret a).
Proof. intros w H. exact H. Qed.

Lemma preserves_throw {A : Type} (P : World -> Prop) (e : Exn) :
  preserves P (throw (A := A) e).
Proof. intros w H. exact H. Qed.

Lemma preserves_bind {A B : Type} (P : World -> Prop) (m : M A) (f : A -> M B) :
  preserves P m -> (forall a, preserves P (f a)) -> preserves P (bind m f).
Proof.
  intros Hm Hf w H. unfold bind. specialize (Hm w H).
  destruct (m w) as [[a | e] w1]; [apply Hf, Hm | exact Hm].
Qed.

Lemma preserves_for_of {A S : Type} (P : World -> Prop)
    (body : A -> S -> M S) (l : list A) (s : S) :
  (forall x s', preserves P (body x s')) -> preserves P (for_of l body s).
Proof.
  intros Hbody. revert s. induction l as [| x l IH]; intros s.
  - apply preserves_ret.
  - cbn [for_of]. apply preserves_bind; [apply Hbody | intros s'; apply IH].
Qed.

Lemma preserves_if {A : Type} (P : World -> Prop) (b : bool) (m1 m2 : M A) :
  preserves P m1 -> preserves P m2 -> preserves P (if b then m1 else m2).
Proof. destruct b; intros H1 H2; assumption. Qed.

(** A property of the store alone is kept by whatever does not write. *)
Lemma preserves_no_write {A : Type} (P : World -> Prop) (m : M A) :
  (forall w w', store w' = store w -> P w -> P w') ->
  (forall w, store (m w).2 = store w) -> preserves P m.
Proof. intros HP Hm w H. exact (HP w _ (Hm w) H). Qed.

Lemma patternId_tier (c1 m1 t1 c2 m2 t2 : string) :
  known_tier m1 -> known_tier m2 ->
  patternId c1 m1 t1 = patternId c2 m2 t2 -> m1 = m2.
Proof.
  unfold patternId.
  intros [-> | [-> | ->]] [-> | [-> | ->]] H; try reflexivity;
    cbn [append] in H; discriminate H.
Qed.

Lemma tier_expiration_known (m : string) :
  known_tier m ->
  tier_expiration m = if String.eqb m "episodic" then Some 7776000 else None.
Proof. intros [-> | [-> | ->]]; reflexivity. Qed.

Lemma tiered_store (w w' : World) : store w' = store w -> tiered w -> tiered w'.
Proof. intros Hs H key e. rewrite Hs. apply H. Qed.

Lemma storePattern_tiered (category memoryType text : string) (metadata : option Metadata) :
  known_tier memoryType ->
  preserves tiered (storePattern category memoryType text metadata).
Proof.
  intros Hk w Hw.
  destruct (storePattern category memoryType text metadata w) as [[s | e] w'] eqn:Hrun;
    cbn [snd].
  - apply storePattern_inv in Hrun as (md & v & _ & _ & _ & _ & Hs & _).
    intros key e He. rewrite Hs in He.
    destruct (decide (key = patternId category memoryType text)) as [-> | Hne].
    + rewrite lookup_insert_eq in He. injection He as <-.
      cbn [entry_written fields expiration Hash.memory_type Hash.category Hash.content].
      split; [exact Hk |]. split; [reflexivity |].
      destruct (tier_expiration memoryType) as [n |] eqn:Hexp; [reflexivity |].
      destruct (store w !! patternId category memoryType text) as [e0 |] eqn:H0;
        [| reflexivity].
      cbn [mbind option_bind].
      destruct (Hw _ _ H0) as (Hk0 & Hkey0 & ->).
      rewrite <- (patternId_tier _ _ _ _ _ _ Hk Hk0 Hkey0). exact Hexp.
    + rewrite lookup_insert_ne in He by congruence. apply (Hw _ _ He).
  - apply storePattern_throws in Hrun as ->.
    apply (tiered_store w (asked text w) eq_refl Hw).
Qed.

Lemma searchPatterns_tiered query k category memoryType :
  preserves tiered (searchPatterns query k category memoryType).
Proof.
  apply preserves_no_write; [exact tiered_store |].
  intros w. apply (searchPatterns_no_write query k category memoryType w).
Qed.

Lemma new_Date_preserves (P : World -> Prop) : preserves P new_Date.
Proof. intros w H. exact H. Qed.

Lemma promote_tiered (d : bool) (m : Value) (p : Pattern.t) (acc : Phase.t) :
  preserves tiered (promote d m p acc).
Proof.
  unfold promote.
  destruct (ge _ m); [| apply preserves_ret].
  destruct (negb d); [| apply preserves_ret].
  apply preserves_bind; [apply new_Date_preserves | intros t].
  apply preserves_bind; [| intros s; apply preserves_ret].
  apply storePattern_tiered. left. reflexivity.
Qed.

Lemma graduate_preserves (P : World -> Prop) (d : bool) (p : Pattern.t) (acc : Phase.t) :
  preserves P (graduate d p acc).
Proof.
  unfold graduate.
  destruct (_ && _); [| apply preserves_ret].
  destruct (negb d); apply preserves_ret.
Qed.

Lemma consolidateMemories_tiered (d : bool) (pt : string) (m : Value) :
  preserves tiered (consolidateMemories d pt m).
Proof.
  rewrite consolidateMemories_phases.
  apply preserves_bind.
  - apply preserves_if; [| apply preserves_ret].
    unfold first_phase. apply preserves_bind; [apply searchPatterns_tiered |].
    intros found. apply preserves_for_of. intros p acc. apply promote_tiered.
  - intros ph1. apply preserves_bind; [| intros ph2; apply preserves_ret].
    apply preserves_if; [| apply preserves_ret].
    unfold second_phase. apply preserves_bind; [apply searchPatterns_tiered |].
    intros found. apply preserves_for_of. intros p acc. apply graduate_preserves.
Qed.

Lemma dispatch_tiered (request : Request) :
  in_schema request -> preserves tiered (dispatch request).
Proof.
  destruct request as [args | args | args | tool]; cbn [in_schema dispatch]; intros Hs.
  - apply preserves_bind; [| intros s; apply preserves_ret].
    apply storePattern_tiered, Hs.
  - apply preserves_bind; [| intros s; apply preserves_ret].
    apply searchPatterns_tiered.
  - apply preserves_bind; [| intros s; apply preserves_ret].
    apply consolidateMemories_tiered.
  - apply preserves_throw.
Qed.

Lemma CallTool_world (request : Request) (w : World) :
  (CallTool request w).2 = (dispatch request w).2.
Proof. unfold CallTool. destruct (dispatch request w) as [[r | e] w']; reflexivity. Qed.

(** X6. One tier per key.  Started on an empty store and given any sequence
    of requests whose [memory_type] is one of the three tiers (or omitted),
    the server keeps this true of every stored pattern: it sits under the
    key [pattern:{memory_type}:{category}:{digest}] of its own fields, its
    memory type is one of the three tiers, and its expiration is the one of
    the tier table: 7776000 seconds when episodic, none otherwise. *)
Theorem one_tier_per_key (requests : list Request) (now : Z) :
  Forall in_schema requests ->
  forall key e, store (serve requests (empty_at now)) !! key = Some e ->
    known_tier (Hash.memory_type (fields e)) /\
    key = patternId (Hash.category (fields e)) (Hash.memory_type (fields e))
            (Hash.content (fields e)) /\
    expiration e = if String.eqb (Hash.memory_type (fields e)) "episodic"
                   then Some 7776000 else None.
Proof.
  intros Hreq.
  assert (Hinv : forall w, tiered w -> tiered (serve requests w)).
  { induction Hreq as [| request rest Hr _ IH]; intros w Hw; [exact Hw |].
    cbn [serve]. apply IH. rewrite CallTool_world.
    apply (dispatch_tiered request Hr w Hw). }
  assert (H0 : tiered (empty_at now)).
  { intros key e He. cbn in He. rewrite lookup_empty in He. discriminate. }
  intros key e He. destruct (Hinv _ H0 key e He) as (Hk & Hkey & Hexp).
  split; [exact Hk |]. split; [exact Hkey |].
  rewrite Hexp. apply tier_expiration_known, Hk.
Qed.

End TierFacts.

(** ** search_patterns: what a result is made of *)

Section SearchMore.

Context {outside : Outside}.

Lemma parse_loop_decodes (hits : list (string * Hash.t)) (acc : list Pattern.t) (w : World) :
  exists ps, for_of hits parse_hit acc w = (Ok (acc ++ ps)%list, w) /\
             Forall2 (decodes w) hits ps.
Proof.
  revert acc. induction hits as [| hit hits IH]; intros acc.
  - exists []. rewrite app_nil_r. split; [reflexivity | constructor].
  - destruct (decode_metadata_runs (Hash.metadata hit.2) w) as (md & Hmd).
    set (p := Pattern.make hit.1 (Hash.category hit.2) (Hash.memory_type hit.2)
                (Hash.content hit.2) md).
    destruct (IH (acc ++ [p])%list) as (ps & Hrun & Hall).
    exists (p :: ps). split.
    + cbn [for_of].
      erewrite bind_ok; [| unfold parse_hit; erewrite bind_ok by exact Hmd; reflexivity].
      fold p. rewrite Hrun, <- app_assoc. reflexivity.
    + constructor; [| exact Hall]. repeat split; try reflexivity. exact Hmd.
Qed.

(** The documents the index is asked to rank, and the hits it returns. *)
Lemma searchPatterns_inv query k category memoryType (w w' : World) (r : SearchResult.t) :
  searchPatterns query k category memoryType w = (Ok r, w') ->
  exists e,
    embeddings query = Some e /\
    w' = searched k category memoryType (asked query w) /\
    Forall2 (decodes w')
      (take k (by_score e
                 (List.filter (fun d => has_tags (tags category memoryType) d.2)
                    (map_to_list (fields <$> store w)))))
      (SearchResult.results r) /\
    SearchResult.count r = length (SearchResult.results r) /\
    SearchResult.query r = query /\
    SearchResult.filters r = (category, memoryType).
Proof.
  destruct (embeddings query) as [e |] eqn:He.
  - unfold searchPatterns.
    rewrite (bind_ok _ _ _ _ _ (generateEmbedding_ok _ _ _ He)).
    unfold ft_search at 1.
    erewrite bind_ok; [| erewrite bind_ok by reflexivity; reflexivity].
    match goal with |- bind (for_of ?hits parse_hit []) _ ?w1 = _ -> _ =>
      change w1 with (searched k category memoryType (asked query w));
      destruct (parse_loop_decodes hits []
                  (searched k category memoryType (asked query w)))
        as (ps & Hrun & Hall);
      rewrite (bind_ok _ _ _ _ _ Hrun) end.
    cbn [app]. intros [= <- <-]. exists e.
    split; [reflexivity |]. split; [reflexivity |].
    split; [exact Hall |]. repeat split.
  - rewrite (searchPatterns_fails _ _ _ _ _ He). discriminate.
Qed.

Lemma Forall2_In_r {A B : Type} (R : A -> B -> Prop) (l : list A) (k : list B) (y : B) :
  Forall2 R l k -> In y k -> exists x, In x l /\ R x y.
Proof.
  induction 1 as [| x y' l k Hxy _ IH]; intros Hin; [contradiction |].
  destruct Hin as [-> | Hin].
  - exists x. split; [left; reflexivity | exact Hxy].
  - destruct (IH Hin) as (x' & Hx' & HR). exists x'. split; [right; exact Hx' | exact HR].
Qed.

Lemma In_take {A : Type} (n : nat) (l : list A) (x : A) : In x (take n l) -> In x l.
Proof.
  revert l. induction n as [| n IH]; intros [| y l]; cbn; try contradiction.
  intros [-> | H]; [left; reflexivity | right; apply IH, H].
Qed.

Lemma decodes_ids (w : World) (hits : list (string * Hash.t)) (ps : list Pattern.t) :
  Forall2 (decodes w) hits ps -> map Pattern.pattern_id ps = map fst hits.
Proof.
  induction 1 as [| hit p hits ps Hd _ IH]; [reflexivity |].
  cbn [map]. rewrite IH. f_equal. apply Hd.
Qed.


(** Where a result comes from, when the index returns only documents that
    passed the filters. *)
Lemma result_origin query k category memoryType (w w' : World)
    (r : SearchResult.t) (p : Pattern.t) :
  index_selects ->
  searchPatterns query k category memoryType w = (Ok r, w') ->
  In p (SearchResult.results r) ->
  exists e,
    store w !! Pattern.pattern_id p = Some e /\
    decodes w' (Pattern.pattern_id p, fields e) p /\
    has_tags (tags category memoryType) (fields e) = true.
Proof.
  intros Hsel Hrun Hin.
  apply searchPatterns_inv in Hrun as (v & _ & _ & Hall & _).
  destruct (Forall2_In_r _ _ _ _ Hall Hin) as ([docId h] & Hhit & Hdec).
  apply In_take, Hsel, filter_In in Hhit as [Hstored Htags].
  apply list_elem_of_In, elem_of_map_to_list in Hstored.
  rewrite lookup_fmap in Hstored.
  destruct (store w !! docId) as [e |] eqn:He; [| discriminate].
  injection Hstored as <-.
  assert (Hid : Pattern.pattern_id p = docId) by apply Hdec.
  exists e. rewrite Hid. split; [exact He |]. split; [exact Hdec | exact Htags].
Qed.

(** X8. A result is a stored pattern.  When the index returns only
    documents of the store, every result of a search is shown under its key
    with the category, the memory type and the content stored under that
    key.  Whether it matches the filters that were asked for is the index's
    doing: the code does not check the reply against them. *)
Theorem search_shows_stored_fields query k category memoryType (w w' : World)
    (r : SearchResult.t) (p : Pattern.t) :
  index_selects ->
  searchPatterns query k category memoryType w = (Ok r, w') ->
  In p (SearchResult.results r) ->
  exists e,
    store w !! Pattern.pattern_id p = Some e /\
    Pattern.category p = Hash.category (fields e) /\
    Pattern.memory_type p = Hash.memory_type (fields e) /\
    Pattern.content p = Hash.content (fields e).
Proof.
  intros Hsel Hrun Hin.
  destruct (result_origin _ _ _ _ _ _ _ _ Hsel Hrun Hin)
    as (e & He & (_ & Hc & Hm & Ht & _) & _).
  cbn [fst snd] in Hc, Hm, Ht.
  exists e. repeat split; assumption.
Qed.

Lemma decode_metadata_keeps (metadata metadata' : Metadata) (w w' : World) (key : string) :
  decode_metadata metadata w = (Ok metadata', w') ->
  key <> "confidence_current" -> key <> "confidence_original" ->
  metadata' !! key = metadata !! key.
Proof.
  unfold decode_metadata.
  destruct (truthy_opt (metadata !! "confidence") &&
            truthy_opt (metadata !! "last_validated")).
  - intros H H1 H2. apply bind_inv in H as (current & w1 & _ & Hret).
    injection Hret as <- _. rewrite !lookup_insert_ne by congruence. reflexivity.
  - intros [= <- _] _ _. reflexivity.
Qed.

(** X9. A search shows the metadata as stored.  Under the same condition on
    the index, the metadata of a result agrees with the stored metadata on
    every field other than [confidence_current] and [confidence_original]
    (in particular on [confidence] and [last_validated]); and when the stored
    [confidence] and [last_validated] are truthy, [confidence_original] is
    the stored confidence and [confidence_current] is the decay computed at
    the instant of the search, whatever was stored under those two names. *)
Theorem search_shows_stored_metadata query k category memoryType (w w' : World)
    (r : SearchResult.t) (p : Pattern.t) :
  index_selects ->
  searchPatterns query k category memoryType w = (Ok r, w') ->
  In p (SearchResult.results r) ->
  exists stored,
    stored_metadata w (Pattern.pattern_id p) = Some stored /\
    (forall key, key <> "confidence_current" -> key <> "confidence_original" ->
                 Pattern.metadata p !! key = stored !! key) /\
    (forall c lv, stored !! "confidence" = Some c -> stored !! "last_validated" = Some lv ->
                  truthy c = true -> truthy lv = true ->
                  Pattern.metadata p !! "confidence_original" = Some c /\
                  exists current,
                    calculateConfidenceDecay c (Some lv) w' = (Ok current, w') /\
                    Pattern.metadata p !! "confidence_current" = Some current).
Proof.
  intros Hsel Hrun Hin.
  destruct (result_origin _ _ _ _ _ _ _ _ Hsel Hrun Hin)
    as (e & He & (_ & _ & _ & _ & Hdec) & _).
  cbn [snd] in Hdec.
  exists (Hash.metadata (fields e)). unfold stored_metadata. rewrite He.
  split; [reflexivity |]. split.
  - intros key H1 H2. apply (decode_metadata_keeps _ _ _ _ _ Hdec H1 H2).
  - intros c lv Hc Hlv Htc Htlv.
    destruct (decode_metadata_truthy _ c lv w' Hc Hlv Htc Htlv) as (current & Hcur & Hrun').
    rewrite Hrun' in Hdec. injection Hdec as <-.
    split; [apply lookup_insert_eq |].
    exists current. split; [exact Hcur |].
    rewrite lookup_insert_ne by discriminate. apply lookup_insert_eq.
Qed.

End SearchMore.

(** ** consolidate_memories: what a run writes and reports *)

Section ConsolidateMore.

Context {outside : Outside}.

Lemma prefix_append (s t : string) : String.prefix s (s ++ t) = true.
Proof.
  induction s as [| a s IH]; [destruct t; reflexivity |].
  change (String.prefix (String a s) (String a s ++ t))
    with (if ascii_dec a a then String.prefix s (s ++ t) else false).
  destruct (ascii_dec a a); [exact IH | contradiction].
Qed.

Lemma semantic_key (category text : string) :
  String.prefix "pattern:semantic:" (patternId category "semantic" text) = true.
Proof.
  unfold patternId.
  set (rest := category ++ ":" ++ decimal (digest text)).
  change ("pattern:" ++ "semantic" ++ ":" ++ rest) with ("pattern:semantic:" ++ rest).
  apply prefix_append.
Qed.

Lemma storePattern_semantic_same_at (key : string) (v : option Entry)
    (category text : string) (metadata : option Metadata) :
  String.prefix "pattern:semantic:" key = false ->
  preserves (same_at key v) (storePattern category "semantic" text metadata).
Proof.
  intros Hkey w Hw. unfold same_at in *.
  destruct (storePattern category "semantic" text metadata w) as [[s | e] w'] eqn:Hrun;
    cbn [snd].
  - apply storePattern_inv in Hrun as (md & x & _ & _ & _ & _ & -> & _).
    rewrite lookup_insert_ne; [exact Hw |].
    intros <-. rewrite semantic_key in Hkey. discriminate.
  - apply storePattern_throws in Hrun as ->. exact Hw.
Qed.

Lemma consolidateMemories_same_at (key : string) (v : option Entry)
    (d : bool) (pt : string) (m : Value) :
  String.prefix "pattern:semantic:" key = false ->
  preserves (same_at key v) (consolidateMemories d pt m).
Proof.
  intros Hkey.
  assert (Hsearch : forall q k c mt, preserves (same_at key v) (searchPatterns q k c mt)).
  { intros q k c mt. apply preserves_no_write.
    - intros w w' Hs. unfold same_at. rewrite Hs. exact id.
    - intros w. apply (searchPatterns_no_write q k c mt w). }
  rewrite consolidateMemories_phases.
  apply preserves_bind.
  - apply preserves_if; [| apply preserves_ret].
    unfold first_phase. apply preserves_bind; [apply Hsearch |].
    intros found. apply preserves_for_of. intros p acc.
    unfold promote.
    destruct (ge _ m); [| apply preserves_ret].
    destruct (negb d); [| apply preserves_ret].
    apply preserves_bind; [apply new_Date_preserves | intros t].
    apply preserves_bind; [| intros s; apply preserves_ret].
    apply storePattern_semantic_same_at, Hkey.
  - intros ph1. apply preserves_bind; [| intros ph2; apply preserves_ret].
    apply preserves_if; [| apply preserves_ret].
    unfold second_phase. apply preserves_bind; [apply Hsearch |].
    intros found. apply preserves_for_of. intros p acc. apply graduate_preserves.
Qed.

(** X10. Consolidation writes semantic keys only.  Whatever its arguments and
    however it ends, also when it throws half way, [consolidateMemories]
    leaves every key that does not start with [pattern:semantic:] as it was;
    on a store that keeps the tier invariant, every episodic and procedural
    pattern is therefore still there afterwards, hash and expiration
    unchanged. *)
Theorem consolidation_keeps_other_tiers (d : bool) (pt : string) (m : Value) (w : World) :
  (forall key, String.prefix "pattern:semantic:" key = false ->
     store (consolidateMemories d pt m w).2 !! key = store w !! key) /\
  (tiered w ->
   forall key e, store w !! key = Some e ->
     Hash.memory_type (fields e) <> "semantic" ->
     store (consolidateMemories d pt m w).2 !! key = Some e).
Proof.
  split.
  - intros key Hkey.
    apply (consolidateMemories_same_at key (store w !! key) d pt m Hkey w). reflexivity.
  - intros Hw key e He Hne.
    destruct (Hw key e He) as (Hk & Hkey & _).
    rewrite <- He.
    apply (consolidateMemories_same_at key (store w !! key) d pt m); [| reflexivity].
    rewrite Hkey. unfold patternId.
    destruct Hk as [Hk | [-> | ->]]; [contradiction | reflexivity | reflexivity].
Qed.

Lemma hsets_app (cs1 cs2 : list Call) : hsets (cs1 ++ cs2) = (hsets cs1 + hsets cs2)%nat.
Proof. unfold hsets. rewrite List.filter_app, length_app. reflexivity. Qed.

Lemma storePattern_hsets (category memoryType text : string) (metadata : option Metadata)
    (w w' : World) (s : Stored.t) :
  storePattern category memoryType text metadata w = (Ok s, w') ->
  hsets (calls w') = S (hsets (calls w)).
Proof.
  intros H. apply storePattern_inv in H as (md & e & _ & _ & _ & _ & _ & ->).
  rewrite hsets_app. destruct (tier_expiration memoryType); reflexivity.
Qed.

Lemma promote_real_hsets (m : Value) (hits : list Pattern.t) (acc acc' : Phase.t)
    (w w' : World) :
  for_of hits (promote false m) acc w = (Ok acc', w') ->
  (hsets (calls w') + Phase.counter acc = hsets (calls w) + Phase.counter acc')%nat.
Proof.
  revert acc w. induction hits as [| p hits IH]; intros acc w.
  - cbn. intros [= <- <-]. lia.
  - cbn [for_of]. intros H.
    apply bind_inv in H as (acc1 & w1 & Hbody & Hrest).
    apply IH in Hrest.
    unfold promote in Hbody.
    destruct (ge _ m).
    + cbn [negb] in Hbody.
      apply bind_inv in Hbody as (t & w2 & Hdate & Hbody). injection Hdate as <- <-.
      apply bind_inv in Hbody as (s & w3 & Hstore & Hret).
      injection Hret as <- <-.
      apply storePattern_hsets in Hstore.
      cbn [Phase.incr Phase.push Phase.counter] in Hrest. lia.
    + injection Hbody as <- <-. exact Hrest.
Qed.

Lemma searchPatterns_hsets q k c mt (w : World) :
  hsets (calls (searchPatterns q k c mt w).2) = hsets (calls w).
Proof.
  destruct (embeddings q) as [e |] eqn:He.
  - destruct (searchPatterns_ok q k c mt e w He) as (ps & ->). reflexivity.
  - rewrite (searchPatterns_fails _ _ _ _ _ He). reflexivity.
Qed.

(** The outcome of each phase of a run that returns. *)
Lemma consolidateMemories_inv (d : bool) (pt : string) (m : Value) (w w' : World)
    (r : Report.t) :
  consolidateMemories d pt m w = (Ok r, w') ->
  exists ph1 w1 ph2,
    (if runs_first pt then first_phase d m else ret (Phase.make [] 0)) w = (Ok ph1, w1) /\
    (if runs_second pt then second_phase d else ret (Phase.make [] 0)) w1 = (Ok ph2, w') /\
    r = Report.make d pt ph1 ph2
          (Summary.make (length (Phase.candidates ph1)) (Phase.counter ph1)
             (length (Phase.candidates ph2))
             "Canonical graduation to knowledge/ requires manual review and markdown export").
Proof.
  rewrite consolidateMemories_phases. intros H.
  apply bind_inv in H as (ph1 & w1 & H1 & H).
  apply bind_inv in H as (ph2 & w2 & H2 & Hret).
  injection Hret as <- <-. exists ph1, w1, ph2. repeat split; assumption.
Qed.

Lemma first_phase_counts (d : bool) (m : Value) (w w' : World) (ph : Phase.t) :
  first_phase d m w = (Ok ph, w') ->
  Phase.counter ph = (if d then 0 else length (Phase.candidates ph))%nat /\
  (hsets (calls w') = hsets (calls w) + Phase.counter ph)%nat.
Proof.
  destruct d.
  - destruct (embeddings "*") as [e |] eqn:He.
    + destruct (first_phase_dry m w e He) as (found & _ & ->).
      intros [= <- <-]. split; [reflexivity |].
      change (hsets (calls (enumerated "episodic" w))) with (hsets (calls w)).
      cbn [Phase.counter]. lia.
    + rewrite (first_phase_down true m w He). discriminate.
  - intros H. pose proof H as H'.
    apply first_phase_real in H' as (found & e & _ & Hs & Hc & Hn).
    unfold first_phase in H. rewrite (bind_ok _ _ _ _ _ Hs) in H.
    apply promote_real_hsets in H. cbn [Phase.counter] in H.
    split; [rewrite Hc, length_map; exact Hn |].
    change (hsets (calls (enumerated "episodic" w))) with (hsets (calls w)) in H. lia.
Qed.

Lemma second_phase_counts (d : bool) (w w' : World) (ph : Phase.t) :
  second_phase d w = (Ok ph, w') ->
  Phase.counter ph = (if d then 0 else length (Phase.candidates ph))%nat /\
  hsets (calls w') = hsets (calls w) /\ store w' = store w.
Proof.
  destruct (embeddings "*") as [e |] eqn:He.
  - destruct (second_phase_ok d w e He) as (found & _ & ->).
    intros [= <- <-]. cbn [Phase.counter Phase.candidates].
    rewrite length_map. repeat split.
  - rewrite (second_phase_down d w He). discriminate.
Qed.

(** X11. The report adds up.  In the report of a run that returns, [dry_run]
    and [promotion_type] are the arguments; the summary counts are the
    lengths of the two candidate lists and the [promoted] counter; in a real
    run [promoted] and [graduated] are the numbers of candidates of their
    phases, and [promoted] is the number of [HSET] calls the run has made. *)
Theorem report_adds_up (d : bool) (pt : string) (m : Value) (w w' : World) (r : Report.t) :
  consolidateMemories d pt m w = (Ok r, w') ->
  Report.dry_run r = d /\ Report.promotion_type r = pt /\
  Summary.episodic_candidates (Report.summary r)
    = length (Phase.candidates (Report.episodic_to_semantic r)) /\
  Summary.episodic_promoted (Report.summary r)
    = Phase.counter (Report.episodic_to_semantic r) /\
  Summary.canonical_candidates (Report.summary r)
    = length (Phase.candidates (Report.semantic_to_canonical r)) /\
  Phase.counter (Report.episodic_to_semantic r)
    = (if d then 0 else length (Phase.candidates (Report.episodic_to_semantic r)))%nat /\
  Phase.counter (Report.semantic_to_canonical r)
    = (if d then 0 else length (Phase.candidates (Report.semantic_to_canonical r)))%nat /\
  (hsets (calls w') = hsets (calls w) + Phase.counter (Report.episodic_to_semantic r))%nat.
Proof.
  intros H. apply consolidateMemories_inv in H as (ph1 & w1 & ph2 & H1 & H2 & ->).
  cbn [Report.dry_run Report.promotion_type Report.summary Report.episodic_to_semantic
       Report.semantic_to_canonical Summary.episodic_candidates Summary.episodic_promoted
       Summary.canonical_candidates].
  do 5 (split; [reflexivity |]).
  assert (Ha : Phase.counter ph1 = (if d then 0 else length (Phase.candidates ph1))%nat /\
               (hsets (calls w1) = hsets (calls w) + Phase.counter ph1)%nat).
  { destruct (runs_first pt).
    - apply (first_phase_counts d m w w1 ph1 H1).
    - injection H1 as <- <-. destruct d; cbn; split; lia. }
  assert (Hb : Phase.counter ph2 = (if d then 0 else length (Phase.candidates ph2))%nat /\
               hsets (calls w') = hsets (calls w1)).
  { destruct (runs_second pt).
    - destruct (second_phase_counts d w1 w' ph2 H2) as (Hn & Hc & _). split; assumption.
    - injection H2 as <- <-. destruct d; cbn; split; reflexivity. }
  destruct Ha as [Ha1 Ha2], Hb as [Hb1 Hb2].
  split; [exact Ha1 |]. split; [exact Hb1 |]. rewrite Hb2. exact Ha2.
Qed.

(** X12. Graduation never writes.  With [promotion_type] set to
    ["semantic_to_canonical"], a run, dry or real, leaves the store as it
    was and sends no write; a real run that returns reports no promotion and
    as many graduations as canonical candidates. *)
Theorem graduation_never_writes (d : bool) (m : Value) (w : World) :
  no_write w (consolidateMemories d "semantic_to_canonical" m w).2 /\
  forall r, (consolidateMemories d "semantic_to_canonical" m w).1 = Ok r ->
    Report.episodic_to_semantic r = Phase.make [] 0 /\
    Phase.counter (Report.semantic_to_canonical r)
      = (if d then 0 else length (Phase.candidates (Report.semantic_to_canonical r)))%nat.
Proof.
  rewrite consolidateMemories_phases.
  change (runs_first "semantic_to_canonical") with false.
  change (runs_second "semantic_to_canonical") with true.
  erewrite bind_ok by reflexivity.
  destruct (embeddings "*") as [e |] eqn:He.
  - destruct (second_phase_ok d w e He) as (found & _ & Hrun).
    rewrite (bind_ok _ _ _ _ _ Hrun). cbn [fst snd ret]. split.
    + apply no_write_enumerated.
    + intros r [= <-]. cbn [Report.episodic_to_semantic Report.semantic_to_canonical
        Phase.counter Phase.candidates]. rewrite length_map. split; reflexivity.
  - rewrite (bind_throw _ _ _ _ _ (second_phase_down d w He)). cbn [fst snd]. split.
    + apply no_write_asked.
    + discriminate.
Qed.

(** X13. A [promotion_type] that is none of the three names runs no phase:
    the call returns an empty report and has done nothing, not even a
    search. *)
Theorem unknown_promotion_type_does_nothing (d : bool) (pt : string) (m : Value) (w : World) :
  pt <> "episodic_to_semantic" -> pt <> "semantic_to_canonical" -> pt <> "both" ->
  exists r,
    consolidateMemories d pt m w = (Ok r, w) /\
    Report.episodic_to_semantic r = Phase.make [] 0 /\
    Report.semantic_to_canonical r = Phase.make [] 0 /\
    Report.promotion_type r = pt.
Proof.
  intros H1 H2 H3. rewrite consolidateMemories_phases.
  assert (Hf : runs_first pt = false).
  { destruct (runs_first pt) eqn:E; [| reflexivity].
    apply runs_first_iff in E as [E | E]; contradiction. }
  assert (Hs : runs_second pt = false).
  { destruct (runs_second pt) eqn:E; [| reflexivity].
    apply runs_second_iff in E as [E | E]; contradiction. }
  rewrite Hf, Hs. eexists. split; [reflexivity |]. repeat split.
Qed.

(** X14. Only the literal [false] turns the dry run off.  A
    [consolidate_memories] request whose [dry_run] is absent, null, 0, a
    string or anything else than the boolean [false] is served as a dry run:
    nothing is written, whatever the other arguments. *)
Theorem dry_run_unless_false (args : ConsolidateArgs.t) (w : World) :
  ConsolidateArgs.dry_run args <> Some (VBool false) ->
  no_write w (CallTool (consolidate_memories args) w).2 /\
  forall r, (CallTool (consolidate_memories args) w).1 = Ok (content (of_consolidate r)) ->
    Report.dry_run r = true /\
    Phase.counter (Report.episodic_to_semantic r) = 0%nat /\
    Phase.counter (Report.semantic_to_canonical r) = 0%nat.
Proof.
  intros Hd.
  assert (Hnf : not_false (ConsolidateArgs.dry_run args) = true).
  { destruct (ConsolidateArgs.dry_run args) as [[| [|] | | | | |] |];
      try reflexivity. contradiction. }
  rewrite CallTool_world. unfold CallTool, dispatch. rewrite Hnf.
  destruct (consolidateMemories true
              (str_or (ConsolidateArgs.promotion_type args) "episodic_to_semantic")
              (or_else (ConsolidateArgs.min_evidence args) (VNum 5)) w)
    as [[r0 | e] w0] eqn:Hrun.
  - destruct (dry_run_no_write _ _ _ _ _ Hrun) as [Hnw Hzero].
    rewrite (bind_ok _ _ _ _ _ Hrun). cbn [fst snd ret]. split; [exact Hnw |].
    intros r [= <-]. destruct (Hzero r0 eq_refl) as [Ha Hb].
    apply consolidateMemories_inv in Hrun as (ph1 & w1 & ph2 & _ & _ & Hr).
    rewrite Hr in Ha, Hb |- *. split; [reflexivity |]. split; assumption.
  - destruct (dry_run_no_write _ _ _ _ _ Hrun) as [Hnw _].
    rewrite (bind_throw _ _ _ _ _ Hrun). cbn [fst snd]. split; [exact Hnw | discriminate].
Qed.

End ConsolidateMore.

(** ** The promoted copy, the canonical test and the previews *)

Section PromotionMore.

Context {outside : Outside}.

(** X15. What a promotion writes.  For a pattern that meets the threshold, a
    real turn of the first loop leaves under the semantic key of the
    pattern's category and content a hash with that category and content and
    memory type [semantic], on which no expiration is set; its metadata
    records [promoted_from = "episodic"], the source's id under
    [original_pattern_id] and the instant of the promotion under
    [promoted_at], and also under [created_at] and [last_validated]: the
    copy's decay starts afresh.  The evidence count is copied. *)
Theorem promotion_writes_copy (m : Value) (p : Pattern.t) (acc acc' : Phase.t)
    (w w' : World) :
  meets_threshold m p = true ->
  promote false m p acc w = (Ok acc', w') ->
  exists e,
    store w' !! patternId (Pattern.category p) "semantic" (Pattern.content p) = Some e /\
    Hash.category (fields e) = Pattern.category p /\
    Hash.memory_type (fields e) = "semantic" /\
    Hash.content (fields e) = Pattern.content p /\
    expiration e
      = store w !! patternId (Pattern.category p) "semantic" (Pattern.content p)
          ≫= expiration /\
    Hash.metadata (fields e) !! "promoted_from" = Some (VStr "episodic") /\
    Hash.metadata (fields e) !! "original_pattern_id"
      = Some (VStr (Pattern.pattern_id p)) /\
    Hash.metadata (fields e) !! "promoted_at" = Some (VDate (clock w)) /\
    Hash.metadata (fields e) !! "created_at" = Some (VDate (clock w)) /\
    Hash.metadata (fields e) !! "last_validated" = Some (VDate (clock w)) /\
    Hash.metadata (fields e) !! "evidence_count"
      = JSON_roundtrip <$> Pattern.metadata p !! "evidence_count" /\
    acc' = Phase.incr (Phase.push (episodic_candidate p) acc).
Proof.
  intros Hmeets H. unfold promote in H.
  fold (meets_threshold m p) in H. fold (episodic_candidate p) in H.
  rewrite Hmeets in H. cbn [negb] in H.
  apply bind_inv in H as (t & w1 & Hdate & H). injection Hdate as <- <-.
  apply bind_inv in H as (s & w2 & Hstore & Hret). injection Hret as <- <-.
  apply storePattern_inv in Hstore as (md & v & Hmd & _ & _ & _ & Hs & _).
  injection Hmd as <-.
  eexists. split; [rewrite Hs; apply lookup_insert_eq |].
  cbn [entry_written fields expiration Hash.category Hash.memory_type Hash.content
       Hash.metadata].
  change (tier_expiration "semantic") with (@None Z).
  do 4 (split; [reflexivity |]).
  rewrite !lookup_fmap. unfold enriched.
  split; [rewrite !lookup_insert_ne by discriminate;
          rewrite lookup_insert_eq; reflexivity |].
  split; [rewrite !lookup_insert_ne by discriminate;
          rewrite lookup_insert_eq; reflexivity |].
  split; [rewrite !lookup_insert_ne by discriminate;
          rewrite lookup_insert_eq; reflexivity |].
  split; [rewrite !lookup_insert_ne by discriminate;
          rewrite lookup_insert_eq; reflexivity |].
  split; [rewrite !lookup_insert_ne by discriminate;
          rewrite lookup_insert_eq; reflexivity |].
  split; [rewrite !lookup_insert_ne by discriminate; reflexivity | reflexivity].
Qed.

Lemma Qle_bool_zero_r (a n : Q) : Qeq_bool n 0 = true -> Qle_bool a 0 = Qle_bool a n.
Proof. apply Qle_bool_zero. Qed.

Lemma ge_or_else_numeric (o : option Value) (a x : Q) :
  match o with Some (VNum _) | None => True | _ => False end ->
  x = match o with Some (VNum n) => n | _ => 0%Q end ->
  ge (or_else o (VNum 0)) (VNum a) = Qle_bool a x.
Proof.
  destruct o as [[| b | n | | s | t | l] |]; try contradiction; intros _ ->.
  - cbn [or_else truthy]. destruct (Qeq_bool n 0) eqn:Hz; cbn [negb ge ToNumber].
    + apply Qle_bool_zero, Hz.
    + reflexivity.
  - reflexivity.
Qed.

Lemma canonical_numeric (p : Pattern.t) :
  numeric_evidence p -> numeric_confidence p ->
  canonical p = Qle_bool 20 (evidence p) && Qle_bool (95 # 100) (confidence_of p).
Proof.
  intros He Hc. unfold canonical.
  rewrite (ge_or_else_numeric _ SEMANTIC_TO_LONGTERM (evidence p) He eq_refl).
  rewrite (ge_or_else_numeric _ MIN_CONFIDENCE (confidence_of p) Hc eq_refl).
  reflexivity.
Qed.

Lemma filter_canonical (hits : list Pattern.t) :
  Forall (fun p => numeric_evidence p /\ numeric_confidence p) hits ->
  List.filter canonical hits
    = List.filter (fun p => Qle_bool 20 (evidence p) &&
                            Qle_bool (95 # 100) (confidence_of p)) hits.
Proof.
  induction 1 as [| p hits [He Hc] _ IH]; [reflexivity |].
  cbn [List.filter]. rewrite (canonical_numeric p He Hc), IH. reflexivity.
Qed.

(** X16. The canonical test.  With [promotion_type] set to
    ["semantic_to_canonical"], dry or real and whatever [min_evidence] is,
    the candidates are the enumerated semantic patterns with an evidence
    count of at least 20 and a confidence of at least 0.95, in the order of
    the enumeration, each flagged [ready_for_export]; a pattern without
    [confidence] counts as confidence 0 and never qualifies. *)
Theorem canonical_threshold (d : bool) (m : Value) (w : World)
    (found : SearchResult.t) (r : Report.t) :
  (searchPatterns "*" 1000 None (Some "semantic") w).1 = Ok found ->
  Forall (fun p => numeric_evidence p /\ numeric_confidence p)
    (SearchResult.results found) ->
  (consolidateMemories d "semantic_to_canonical" m w).1 = Ok r ->
  Phase.candidates (Report.semantic_to_canonical r)
    = map canonical_candidate
        (List.filter (fun p => Qle_bool 20 (evidence p) &&
                               Qle_bool (95 # 100) (confidence_of p))
           (SearchResult.results found)) /\
  Forall (fun c => Candidate.ready_for_export c = Some true)
    (Phase.candidates (Report.semantic_to_canonical r)) /\
  (forall p, Pattern.metadata p !! "confidence" = None -> canonical p = false).
Proof.
  intros Hs Hnum H.
  assert (Hc : Phase.candidates (Report.semantic_to_canonical r)
               = map canonical_candidate
                   (List.filter canonical (SearchResult.results found))).
  { rewrite consolidateMemories_phases in H.
    change (runs_first "semantic_to_canonical") with false in H.
    change (runs_second "semantic_to_canonical") with true in H.
    erewrite bind_ok in H by reflexivity.
    destruct (embeddings "*") as [e |] eqn:He.
    - destruct (second_phase_ok d w e He) as (found' & Hs' & Hrun).
      rewrite Hs' in Hs. injection Hs as ->.
      rewrite (bind_ok _ _ _ _ _ Hrun) in H. injection H as <-. reflexivity.
    - rewrite (bind_throw _ _ _ _ _ (second_phase_down d w He)) in H. discriminate. }
  split; [rewrite Hc, (filter_canonical _ Hnum); reflexivity |]. split.
  - rewrite Hc. apply Forall_forall. intros c Hin.
    apply list_elem_of_In, in_map_iff in Hin as (p & <- & _). reflexivity.
  - intros p Hp. unfold canonical. rewrite Hp. cbn [or_else].
    apply andb_false_r.
Qed.

Lemma substring_length (n : nat) (s : string) :
  (String.length (substring 0 n s) <= n)%nat.
Proof.
  revert s. induction n as [| n IH]; intros [| a s]; cbn; try lia.
  specialize (IH s). lia.
Qed.

Lemma substring_short (n : nat) (s : string) :
  (String.length s <= n)%nat -> substring 0 n s = s.
Proof.
  revert s. induction n as [| n IH]; intros [| a s]; cbn; try reflexivity; try lia.
  intros H. rewrite IH by lia. reflexivity.
Qed.

Lemma append_length (s t : string) :
  String.length (s ++ t) = (String.length s + String.length t)%nat.
Proof.
  induction s as [| a s IH]; [reflexivity |].
  change (String.length (String a s ++ t)) with (S (String.length (s ++ t))).
  rewrite IH. reflexivity.
Qed.

Lemma preview_of_hit query k category memoryType (w w' : World) (r : SearchResult.t)
    (p : Pattern.t) (c : Candidate.t) :
  index_selects ->
  searchPatterns query k category memoryType w = (Ok r, w') ->
  In p (SearchResult.results r) ->
  Candidate.pattern_id c = Pattern.pattern_id p ->
  Candidate.category c = Pattern.category p ->
  Candidate.content c = substring 0 100 (Pattern.content p) ++ "..." ->
  previews w c.
Proof.
  intros Hsel Hrun Hin Hid Hcat Hcontent.
  destruct (result_origin _ _ _ _ _ _ _ _ Hsel Hrun Hin)
    as (e & He & (_ & Hc & _ & Ht & _) & _).
  cbn [fst snd] in Hc, Ht.
  exists e. rewrite Hid, Hcat, Hcontent, Hc, Ht.
  split; [exact He |]. split; [reflexivity |]. split; [reflexivity |]. split.
  - rewrite append_length.
    pose proof (substring_length 100 (Hash.content (fields e))).
    change (String.length "...") with 3%nat. lia.
  - intros Hshort. rewrite (substring_short 100 _ Hshort). reflexivity.
Qed.

(** X17. The previews.  When the index returns only documents of the store,
    every candidate of a report shows a stored pattern: its [pattern_id] is
    a key of the store, and its [content] is the first 100 characters of the
    content stored under that key followed by three dots.  It is never longer
    than 103 characters, and the dots are there also when nothing was cut.
    The candidates of the first phase are patterns of the store the run
    started with, those of the second phase of the store it leaves. *)
Theorem candidate_previews (d : bool) (pt : string) (m : Value) (w w' : World)
    (r : Report.t) :
  index_selects ->
  consolidateMemories d pt m w = (Ok r, w') ->
  (forall c, In c (Phase.candidates (Report.episodic_to_semantic r)) -> previews w c) /\
  (forall c, In c (Phase.candidates (Report.semantic_to_canonical r)) -> previews w' c).
Proof.
  intros Hsel H. apply consolidateMemories_inv in H as (ph1 & w1 & ph2 & H1 & H2 & ->).
  cbn [Report.episodic_to_semantic Report.semantic_to_canonical].
  split; intros c Hin.
  - destruct (runs_first pt).
    + apply first_phase_candidates in H1 as (found & Hs & Hc). rewrite Hc in Hin.
      apply in_map_iff in Hin as (p & <- & Hp). apply filter_In in Hp as [Hp _].
      destruct (searchPatterns "*" 1000 None (Some "episodic") w)
        as [[found' | x] w0] eqn:Hrun; [| discriminate].
      injection Hs as ->.
      apply (preview_of_hit _ _ _ _ _ _ _ p _ Hsel Hrun Hp); reflexivity.
    + injection H1 as <- _. contradiction.
  - destruct (runs_second pt).
    + destruct (embeddings "*") as [e |] eqn:He.
      * destruct (second_phase_ok d w1 e He) as (found & Hs & Hrun).
        rewrite Hrun in H2. injection H2 as <- <-.
        apply in_map_iff in Hin as (p & <- & Hp). apply filter_In in Hp as [Hp _].
        destruct (preview_of_hit _ _ _ _ _ _ _ p (canonical_candidate p) Hsel Hs Hp
                    eq_refl eq_refl eq_refl) as (x & Hx).
        exists x. exact Hx.
      * rewrite (second_phase_down d w1 He) in H2. discriminate.
    + injection H2 as <- _. contradiction.
Qed.

End PromotionMore.

(** ** Reminders *)

Section ReminderFacts.

Context {order : FieldOrder}.

Lemma sort_insert_perm {A : Type} (cmp : A -> A -> Z) (x : A) (l : list A) :
  sort_insert cmp x l ≡ₚ x :: l.
Proof.
  induction l as [| y l IH]; [reflexivity |].
  cbn [sort_insert]. destruct (0 <? cmp y x)%Z; [reflexivity |].
  rewrite IH. apply Permutation_swap.
Qed.

Lemma Array_sort_perm {A : Type} (cmp : A -> A -> Z) (l : list A) :
  Array_sort cmp l ≡ₚ l.
Proof.
  unfold Array_sort.
  assert (H : forall acc, fold_left (fun sorted x => sort_insert cmp x sorted) l acc
                          ≡ₚ acc ++ l).
  { induction l as [| x l IH]; intros acc.
    - rewrite app_nil_r. reflexivity.
    - cbn [fold_left]. rewrite IH, sort_insert_perm.
      rewrite (Permutation_middle acc l x). reflexivity. }
  apply (H []).
Qed.

(** An element goes right after the elements that are not greater, when the
    rest is greater. *)
Lemma sort_insert_between {A : Type} (cmp : A -> A -> Z) (x : A) (l1 l2 : list A) :
  Forall (fun y => (cmp y x <= 0)%Z) l1 ->
  Forall (fun y => (0 < cmp y x)%Z) l2 ->
  sort_insert cmp x (l1 ++ l2) = (l1 ++ x :: l2)%list.
Proof.
  intros H1 H2. induction H1 as [| y l1 Hy _ IH].
  - destruct H2 as [| y l2 Hy _]; [reflexivity |].
    cbn [app sort_insert]. apply Z.ltb_lt in Hy. rewrite Hy. reflexivity.
  - cbn [app sort_insert].
    destruct (0 <? cmp y x)%Z eqn:E; [apply Z.ltb_lt in E; lia |].
    rewrite IH. reflexivity.
Qed.

Lemma priorityOrder_known (r : Reminder.t) :
  known_priority r ->
  priorityOrder (Reminder.priority r)
  = Some (if String.eqb (Reminder.priority r) "critical" then 0
          else if String.eqb (Reminder.priority r) "important" then 1 else 2).
Proof. intros [-> | [-> | ->]]; reflexivity. Qed.

Lemma with_priority_rank (p : string) (l : list Reminder.t) :
  Forall (fun r => Reminder.priority r = p) (with_priority p l).
Proof.
  apply Forall_forall. intros r Hin.
  apply list_elem_of_In, filter_In in Hin as [_ Hp]. apply String.eqb_eq, Hp.
Qed.

Lemma with_priority_snoc (p : string) (l : list Reminder.t) (x : Reminder.t) :
  with_priority p (l ++ [x])
  = (with_priority p l ++ if String.eqb (Reminder.priority x) p then [x] else [])%list.
Proof. unfold with_priority. rewrite List.filter_app. reflexivity. Qed.

Lemma by_priority_of (a b : Reminder.t) (pa pb : string) (x y : Z) :
  Reminder.priority a = pa -> Reminder.priority b = pb ->
  priorityOrder pa = Some x -> priorityOrder pb = Some y ->
  by_priority a b = x - y.
Proof. intros <- <- Ha Hb. unfold by_priority. rewrite Ha, Hb. reflexivity. Qed.

Lemma Forall_by_priority (p : string) (x : Reminder.t) (l : list Reminder.t)
    (P : Z -> Prop) (rp rx : Z) :
  priorityOrder p = Some rp -> priorityOrder (Reminder.priority x) = Some rx ->
  P (rp - rx) ->
  Forall (fun y => P (by_priority y x)) (with_priority p l).
Proof.
  intros Hp Hx HP.
  eapply Forall_impl; [apply with_priority_rank |].
  intros y Hy. cbn beta in Hy.
  rewrite (by_priority_of y x p _ rp rx Hy eq_refl Hp Hx). exact HP.
Qed.

(** With known priorities the sort groups the reminders: the critical ones,
    then the important ones, then the others, each group in the order it had. *)
Lemma Array_sort_groups (l : list Reminder.t) :
  Forall known_priority l ->
  Array_sort by_priority l
  = (with_priority "critical" l ++ with_priority "important" l
       ++ with_priority "info" l)%list.
Proof.
  intros Hl. unfold Array_sort.
  assert (H : forall done,
            fold_left (fun sorted x => sort_insert by_priority x sorted) l
              (with_priority "critical" done ++ with_priority "important" done
                 ++ with_priority "info" done)%list
            = (with_priority "critical" (done ++ l)
                 ++ with_priority "important" (done ++ l)
                 ++ with_priority "info" (done ++ l))%list).
  { induction Hl as [| x l Hx _ IH]; intros done.
    - rewrite app_nil_r. reflexivity.
    - cbn [fold_left].
      replace (done ++ x :: l)%list with ((done ++ [x]) ++ l)%list
        by (rewrite <- app_assoc; reflexivity).
      rewrite <- IH. f_equal. rewrite !with_priority_snoc.
      destruct Hx as [Hx | [Hx | Hx]]; rewrite Hx; cbn [String.eqb Ascii.eqb Bool.eqb].
      + change (if "critical" =? "critical" then [x] else []) with [x].
        rewrite app_nil_r, app_nil_r, <- app_assoc.
        apply sort_insert_between.
        * apply (Forall_by_priority "critical" x done (fun z => (z <= 0)%Z) 0 0);
            [reflexivity | rewrite Hx; reflexivity | lia].
        * apply Forall_app. split.
          -- apply (Forall_by_priority "important" x done (fun z => (0 < z)%Z) 1 0);
               [reflexivity | rewrite Hx; reflexivity | lia].
          -- apply (Forall_by_priority "info" x done (fun z => (0 < z)%Z) 2 0);
               [reflexivity | rewrite Hx; reflexivity | lia].
      + change (if "important" =? "critical" then [x] else []) with (@nil Reminder.t).
        change (if "important" =? "important" then [x] else []) with [x].
        change (if "important" =? "info" then [x] else []) with (@nil Reminder.t).
        rewrite !app_nil_r.
        rewrite (app_assoc (with_priority "critical" done)).
        rewrite (app_assoc (with_priority "critical" done)
                   (with_priority "important" done ++ [x])).
        rewrite (app_assoc (with_priority "critical" done)
                   (with_priority "important" done) [x]).
        rewrite <- (app_assoc (with_priority "critical" done ++ with_priority "important" done)
                      [x]).
        apply sort_insert_between.
        * apply Forall_app. split.
          -- apply (Forall_by_priority "critical" x done (fun z => (z <= 0)%Z) 0 1);
               [reflexivity | rewrite Hx; reflexivity | lia].
          -- apply (Forall_by_priority "important" x done (fun z => (z <= 0)%Z) 1 1);
               [reflexivity | rewrite Hx; reflexivity | lia].
        * apply (Forall_by_priority "info" x done (fun z => (0 < z)%Z) 2 1);
            [reflexivity | rewrite Hx; reflexivity | lia].
      + change (if "info" =? "critical" then [x] else []) with (@nil Reminder.t).
        change (if "info" =? "important" then [x] else []) with (@nil Reminder.t).
        change (if "info" =? "info" then [x] else []) with [x].
        rewrite !app_nil_r.
        rewrite !app_assoc.
        rewrite <- (app_nil_r ((with_priority "critical" done
                                 ++ with_priority "important" done)
                                ++ with_priority "info" done)) at 1.
        rewrite (sort_insert_between by_priority x _ []); [reflexivity | | constructor].
        apply Forall_app. split; [apply Forall_app; split |].
        * apply (Forall_by_priority "critical" x done (fun z => (z <= 0)%Z) 0 2);
            [reflexivity | rewrite Hx; reflexivity | lia].
        * apply (Forall_by_priority "important" x done (fun z => (z <= 0)%Z) 1 2);
            [reflexivity | rewrite Hx; reflexivity | lia].
        * apply (Forall_by_priority "info" x done (fun z => (z <= 0)%Z) 2 2);
            [reflexivity | rewrite Hx; reflexivity | lia]. }
  apply (H []).
Qed.

End ReminderFacts.

Section ReminderTools.

Context {order : FieldOrder}.

Lemma append_inj_l (s a b : string) : s ++ a = s ++ b -> a = b.
Proof.
  induction s as [| c s IH]; [exact id |].
  change (String c s ++ a) with (String c (s ++ a)).
  change (String c s ++ b) with (String c (s ++ b)).
  intros [= H]. apply IH, H.
Qed.

Lemma checkReminders_perm (taskType : string) (d : Desk) :
  Reminders.reminders (checkReminders taskType d)
    ≡ₚ map snd (map_to_list (reminder_hash d ("reminder:" ++ taskType))).
Proof.
  unfold checkReminders. cbn [Reminders.reminders].
  rewrite Array_sort_perm. apply Permutation_map, hgetall_order_perm.
Qed.

Lemma checkReminders_count (taskType : string) (d : Desk) :
  Reminders.count (checkReminders taskType d)
    = size (reminder_hash d ("reminder:" ++ taskType)).
Proof.
  change (Reminders.count (checkReminders taskType d))
    with (length (Reminders.reminders (checkReminders taskType d))).
  rewrite checkReminders_perm, length_map. apply length_map_to_list.
Qed.

(** X18. [check_reminders] loses nothing and orders by priority.  The
    reminders it returns are those stored for the task type, each once, and
    [count] is their number, 0 for a task type without reminders; when every
    stored priority is one of critical, important and info, the list is the
    critical ones, then the important ones, then the info ones, each group
    in the order in which the store listed it. *)
Theorem check_reminders_sorted (taskType : string) (d : Desk) :
  let stored := reminder_hash d ("reminder:" ++ taskType) in
  let listed := map snd (hgetall_order (map_to_list stored)) in
  let r := checkReminders taskType d in
  Reminders.task_type r = taskType /\
  Reminders.count r = length (Reminders.reminders r) /\
  Reminders.count r = size stored /\
  Reminders.reminders r ≡ₚ map snd (map_to_list stored) /\
  (map_Forall (fun _ x => known_priority x) stored ->
   Reminders.reminders r
     = (with_priority "critical" listed ++ with_priority "important" listed
          ++ with_priority "info" listed)%list).
Proof.
  intros stored listed r.
  split; [reflexivity |]. split; [reflexivity |].
  split; [apply checkReminders_count |].
  split; [apply checkReminders_perm |].
  unfold r, checkReminders. fold stored. cbn [Reminders.reminders].
  intros Hknown. fold listed.
  apply Array_sort_groups.
  apply map_Forall_to_list in Hknown.
  rewrite <- (hgetall_order_perm (map_to_list stored)) in Hknown.
  apply Forall_map. eapply Forall_impl; [exact Hknown |].
  intros [k x] H. exact H.
Qed.

(** X19. A reminder that was set is found.  After [set_reminder] for a task
    type, [check_reminders] for that task type lists the new reminder, with
    the given content, the given priority or [info] when none was given, and
    the id [r_{now}] that the call returned; the count has grown by one,
    unless a reminder with that id was already there. *)
Theorem set_then_check (taskType text : string) (priority : option string) (d : Desk) :
  let key := "reminder:" ++ taskType in
  let id := "r_" ++ signed_decimal (desk_clock d) in
  let out := setReminder taskType text priority d in
  ReminderSet.status out.1 = "ok" /\
  ReminderSet.reminder_id out.1 = id /\
  In (Reminder.make id text (default "info" priority) (desk_clock d))
     (Reminders.reminders (checkReminders taskType out.2)) /\
  Reminders.count (checkReminders taskType out.2)
    = match reminder_hash d key !! id with
      | Some _ => Reminders.count (checkReminders taskType d)
      | None => S (Reminders.count (checkReminders taskType d))
      end.
Proof.
  intros key id out.
  pose proof (checkReminders_count taskType out.2) as Hsize.
  pose proof (checkReminders_perm taskType out.2) as Hperm.
  pose proof (checkReminders_count taskType d) as Hsize0.
  assert (Hhash : reminder_hash out.2 key
                  = <[id := Reminder.make id text (default "info" priority) (desk_clock d)]>
                      (reminder_hash d key)).
  { unfold out, setReminder, reminder_hash at 1. cbn [snd reminder_hashes].
    fold key. fold id. rewrite lookup_insert_eq. reflexivity. }
  fold key in Hsize, Hperm, Hsize0. rewrite Hhash in Hsize, Hperm.
  split; [reflexivity |]. split; [reflexivity |]. split.
  - apply list_elem_of_In. rewrite Hperm.
    apply (list_elem_of_fmap_2 snd _ (id, _)).
    apply elem_of_map_to_list, lookup_insert_eq.
  - rewrite Hsize, Hsize0, map_size_insert. destruct (reminder_hash d key !! id); reflexivity.
Qed.

(** X20. Two reminders in the same millisecond.  The id of a reminder is the
    instant of the call, so a second [set_reminder] for the same task type at
    the same instant takes the place of the first: the store is the one the
    second call alone would have left. *)
Theorem same_instant_reminders_collide (taskType text1 text2 : string)
    (priority1 priority2 : option string) (d : Desk) :
  (setReminder taskType text2 priority2 (setReminder taskType text1 priority1 d).2).2
  = (setReminder taskType text2 priority2 d).2 /\
  ReminderSet.reminder_id
    (setReminder taskType text2 priority2 (setReminder taskType text1 priority1 d).2).1
  = ReminderSet.reminder_id (setReminder taskType text1 priority1 d).1.
Proof.
  unfold setReminder, reminder_hash. cbn [snd fst reminder_hashes desk_clock
    ReminderSet.reminder_id].
  split; [| reflexivity].
  rewrite lookup_insert_eq. cbn [default from_option id].
  rewrite !insert_insert_eq. reflexivity.
Qed.

(** X21. Reminders are kept per task type: setting one for a task type
    changes nothing in what [check_reminders] answers for another. *)
Theorem reminders_per_task_type (taskType other text : string)
    (priority : option string) (d : Desk) :
  other <> taskType ->
  checkReminders other (setReminder taskType text priority d).2 = checkReminders other d.
Proof.
  intros Hne. unfold checkReminders, setReminder, reminder_hash.
  cbn [snd reminder_hashes].
  rewrite lookup_insert_ne; [reflexivity |].
  intros H. apply append_inj_l in H. congruence.
Qed.

End ReminderTools.

Lemma reminders_per_task_type_witness :
  checkReminders (order := key_order) "deploy"
    (setReminder "review" "check the env files" (Some "critical") (mkDesk ∅ 1000)).2
  = checkReminders (order := key_order) "deploy" (mkDesk ∅ 1000).
Proof.
  apply (reminders_per_task_type (order := key_order)). discriminate.
Defined.

(** ** Vectors in the store *)

Section VectorFacts.

Context {codec : Float32}.

(** X22. Encoding and decoding a vector.  [encodeVector] makes a buffer of
    four bytes per entry, and [decodeVector] reads from it a vector of the
    same length whose entries are the originals rounded to binary32. *)
Theorem vector_round_trip (vector : list Q) :
  length (encodeVector vector) = (4 * length vector)%nat /\
  decodeVector (encodeVector vector) = Some (map fround vector).
Proof.
  induction vector as [| val vector [IHl IHd]]; [split; reflexivity |].
  split.
  - cbn [encodeVector flat_map app length] in *. fold (encodeVector vector).
    rewrite IHl. lia.
  - cbn [encodeVector flat_map app decodeVector map]. fold (encodeVector vector).
    rewrite IHd, read_write. reflexivity.
Qed.

Lemma decodeVector_length (buffer : list Byte.byte) (vector : list Q) :
  decodeVector buffer = Some vector -> length buffer = (4 * length vector)%nat.
Proof.
  revert vector.
  induction buffer as [buffer IH] using (induction_ltof1 _ (@length Byte.byte)).
  unfold ltof in IH. intros vector.
  destruct buffer as [| b0 [| b1 [| b2 [| b3 rest]]]]; cbn [decodeVector];
    try discriminate.
  - intros [= <-]. reflexivity.
  - destruct (decodeVector rest) as [v |] eqn:Hrest; [| discriminate].
    intros [= <-]. cbn [length]. rewrite (IH rest ltac:(cbn; lia) v Hrest). lia.
Qed.

Lemma decodeVector_multiple (buffer : list Byte.byte) (n : nat) :
  length buffer = (4 * n)%nat -> is_Some (decodeVector buffer).
Proof.
  revert buffer. induction n as [| n IH]; intros buffer Hlen.
  - destruct buffer; [eexists; reflexivity | discriminate].
  - destruct buffer as [| b0 [| b1 [| b2 [| b3 rest]]]]; cbn [length] in Hlen; try lia.
    destruct (IH rest ltac:(lia)) as (v & Hv).
    cbn [decodeVector]. rewrite Hv. eexists. reflexivity.
Qed.

(** X23. [decodeVector] on any buffer.  It returns a vector exactly when the
    length of the buffer is a multiple of four, the empty buffer giving the
    empty vector, and the vector then has a quarter of that length; on any
    other buffer the last read runs past the end and the call throws. *)
Theorem decodeVector_total_on_multiples (buffer : list Byte.byte) :
  (is_Some (decodeVector buffer) <-> (length buffer mod 4 = 0)%nat) /\
  (forall vector, decodeVector buffer = Some vector ->
                  length buffer = (4 * length vector)%nat) /\
  decodeVector [] = Some [].
Proof.
  split; [| split; [apply decodeVector_length | reflexivity]].
  split.
  - intros (v & Hv). rewrite (decodeVector_length _ _ Hv).
    rewrite Nat.mul_comm. apply Nat.Div0.mod_mul.
  - intros Hmod. apply (decodeVector_multiple buffer (length buffer / 4)).
    pose proof (Nat.div_mod_eq (length buffer) 4). lia.
Qed.

End VectorFacts.

Lemma decodeVector_total_on_multiples_witness :
  decodeVector (codec := one_byte_codec) [Byte.x07; Byte.x00; Byte.x00] = None /\
  (length (encodeVector (codec := one_byte_codec) [7%Q; 8%Q]) mod 4 = 0)%nat.
Proof.
  pose proof (decodeVector_total_on_multiples (codec := one_byte_codec)
                [Byte.x07; Byte.x00; Byte.x00]) as (Hiff & _ & _).
  split; [| reflexivity].
  destruct (decodeVector (codec := one_byte_codec) [Byte.x07; Byte.x00; Byte.x00])
    as [v |] eqn:E; [| reflexivity].
  exfalso. assert (H : is_Some (Some v)) by (eexists; reflexivity).
  apply Hiff in H. discriminate H.
Defined.

(** ** health_check *)

Section HealthFacts.

Context {outside : Outside} {infra : Infra}.

(** X24. The health check.  It asks the embedding service for the embedding
    of ["test"] at every call and writes nothing.  The status is [healthy]
    exactly when the store answers the ping and the embedding service
    answers; whether the vector index exists is reported under
    [vector_index] and does not change the status. *)
Theorem health_status (w : World) :
  exists h,
    healthCheck w = (Ok h, asked "test" w) /\
    (Health.status h = "healthy" \/ Health.status h = "degraded") /\
    (Health.status h = "healthy" <-> ping = None /\ is_Some (embeddings "test")) /\
    Checks.vector_index (Health.checks h) = (if index_found then "exists" else "missing").
Proof.
  unfold healthCheck.
  destruct (embeddings "test") as [e |] eqn:He.
  - rewrite (generateEmbedding_ok _ _ _ He).
    destruct ping as [message |]; eexists; (split; [reflexivity |]);
      cbn [Health.status Health.checks Checks.vector_index].
    + change (String.eqb ("error: " ++ message) "connected") with false.
      cbn [andb]. split; [right; reflexivity |]. split; [| reflexivity].
      split; [discriminate | intros [H _]; discriminate H].
    + cbn. split; [left; reflexivity |]. split; [| reflexivity].
      split; [intros _; split; [reflexivity | eexists; reflexivity] | reflexivity].
  - rewrite (generateEmbedding_fails _ _ He).
    eexists. split; [reflexivity |].
    cbn [Health.status Health.checks Checks.vector_index].
    change (String.eqb ("error: " ++ embedding_error) "connected") with false.
    rewrite andb_false_r. split; [right; reflexivity |]. split; [| reflexivity].
    split; [discriminate | intros [_ [x Hx]]; discriminate Hx].
Qed.

End HealthFacts.

(** * The further laws on concrete runs *)

Lemma zero_confidence_search_run :
  searchPatterns (outside := lab) "abc" 5 None (Some "semantic") zero_confidence
  = (Ok zero_confidence_found, zero_confidence_search.2).
Proof. vm_compute. reflexivity. Qed.

Lemma one_episodic_consolidation_run :
  consolidateMemories (outside := lab) false "both" (VNum 5) one_episodic
  = (Ok one_episodic_report, one_episodic_consolidation.2).
Proof. vm_compute. reflexivity. Qed.

Lemma lab_index_selects : index_selects (outside := lab).
Proof. intros vec docs d H. exact H. Defined.

Lemma promoted_enumeration_run :
  searchPatterns (outside := lab) "*" 1000 None (Some "semantic")
    one_episodic_consolidation.2
  = (Ok promoted_found, promoted_enumeration.2).
Proof. vm_compute. reflexivity. Qed.

Lemma storePattern_fails_clean_witness :
  no_write (empty_at 1000) (asked "abc" (empty_at 1000)).
Proof.
  apply (storePattern_fails_clean (outside := lab) "solution" "semantic" "abc" None
           (empty_at 1000) (asked "abc" (empty_at 1000))
           (TypeError "Cannot read properties of undefined (reading 'source')")).
  reflexivity.
Defined.

Lemma storePattern_writes_one_key_witness :
  exists s w',
    storePattern (outside := lab) "solution" "episodic" "abc"
      (Some (metadata_of (97 # 100) 25)) (empty_at 1000) = (Ok s, w') /\
    is_Some (store w' !! Stored.pattern_id s) /\
    dom (store w') = {[Stored.pattern_id s]} ∪ dom (store (empty_at 1000)).
Proof.
  pose proof (storePattern_ok (outside := lab) "solution" "episodic" "abc"
                (metadata_of (97 # 100) 25) [1%Q] (empty_at 1000) eq_refl) as H.
  cbv zeta in H.
  destruct (storePattern_writes_one_key (outside := lab) _ _ _ _ _ _ _ H) as (H1 & _ & H3).
  eexists. eexists. split; [exact H |]. split; [exact H1 | exact H3].
Defined.

Lemma storePattern_enriches_witness :
  exists s w' stored,
    storePattern (outside := lab) "solution" "episodic" "abc"
      (Some (<["created_at" := VDate 5]> (metadata_of (97 # 100) 25)))
      (empty_at 1000) = (Ok s, w') /\
    stored_metadata w' (Stored.pattern_id s) = Some stored /\
    stored !! "created_at" = Some (VDate 1000) /\
    stored !! "source" = Some (VStr "unknown").
Proof.
  pose proof (storePattern_ok (outside := lab) "solution" "episodic" "abc"
                (<["created_at" := VDate 5]> (metadata_of (97 # 100) 25))
                [1%Q] (empty_at 1000) eq_refl) as H.
  cbv zeta in H.
  destruct (storePattern_enriches (outside := lab) _ _ _ _ _ _ _ H)
    as (stored & H1 & H2 & _ & H4 & _).
  eexists. eexists. exists stored. split; [exact H |]. split; [exact H1 |].
  split; [exact H2 |]. rewrite H4. vm_compute. reflexivity.
Defined.

Lemma one_tier_per_key_witness :
  exists e,
    store (serve (outside := lab)
             [store_pattern
                (StoreArgs.make "solution" (Some "episodic") "abc"
                   (Some (metadata_of (97 # 100) 25)))]
             (empty_at 1000)) !! "pattern:episodic:solution:96354" = Some e /\
    known_tier (Hash.memory_type (fields e)).
Proof.
  destruct (store (serve (outside := lab)
             [store_pattern
                (StoreArgs.make "solution" (Some "episodic") "abc"
                   (Some (metadata_of (97 # 100) 25)))]
             (empty_at 1000)) !! "pattern:episodic:solution:96354") as [e |] eqn:He;
    [| revert He; vm_compute; discriminate].
  exists e. split; [reflexivity |].
  apply (one_tier_per_key (outside := lab)
           [store_pattern
              (StoreArgs.make "solution" (Some "episodic") "abc"
                 (Some (metadata_of (97 # 100) 25)))]
           1000
           ltac:(constructor; [right; left; reflexivity | constructor])
           "pattern:episodic:solution:96354" e He).
Defined.


Lemma search_shows_stored_fields_witness :
  exists p e,
    In p (SearchResult.results zero_confidence_found) /\
    store zero_confidence !! Pattern.pattern_id p = Some e /\
    Pattern.content p = Hash.content (fields e).
Proof.
  destruct (SearchResult.results zero_confidence_found) as [| p l] eqn:E;
    [revert E; vm_compute; discriminate |].
  destruct (search_shows_stored_fields (outside := lab)
              "abc" 5 None (Some "semantic") zero_confidence
              zero_confidence_search.2 zero_confidence_found p
              lab_index_selects zero_confidence_search_run
              ltac:(rewrite E; left; reflexivity))
    as (e & He & _ & _ & Hc).
  exists p, e. split; [left; reflexivity |]. split; [exact He | exact Hc].
Defined.

Lemma search_shows_stored_metadata_witness :
  exists p stored,
    In p (SearchResult.results zero_confidence_found) /\
    stored_metadata zero_confidence (Pattern.pattern_id p) = Some stored /\
    Pattern.metadata p !! "confidence" = stored !! "confidence".
Proof.
  destruct (SearchResult.results zero_confidence_found) as [| p l] eqn:E;
    [revert E; vm_compute; discriminate |].
  destruct (search_shows_stored_metadata (outside := lab)
              "abc" 5 None (Some "semantic") zero_confidence
              zero_confidence_search.2 zero_confidence_found p
              lab_index_selects zero_confidence_search_run
              ltac:(rewrite E; left; reflexivity))
    as (stored & Hs & Hkeep & _).
  exists p, stored. split; [left; reflexivity |]. split; [exact Hs |].
  apply Hkeep; discriminate.
Defined.

Lemma consolidation_keeps_other_tiers_witness :
  store (consolidateMemories (outside := lab) false "both" (VNum 5) one_episodic).2
    !! "pattern:episodic:solution:96354"
  = store one_episodic !! "pattern:episodic:solution:96354".
Proof.
  apply (proj1 (consolidation_keeps_other_tiers (outside := lab) false "both" (VNum 5)
                  one_episodic)).
  reflexivity.
Defined.

Lemma report_adds_up_witness :
  Phase.counter (Report.episodic_to_semantic one_episodic_report) = 1%nat /\
  (hsets (calls one_episodic_consolidation.2)
   = hsets (calls one_episodic)
     + Phase.counter (Report.episodic_to_semantic one_episodic_report))%nat.
Proof.
  split; [reflexivity |].
  apply (report_adds_up (outside := lab) false "both" (VNum 5) one_episodic
           one_episodic_consolidation.2 one_episodic_report
           one_episodic_consolidation_run).
Defined.

Lemma graduation_never_writes_witness :
  exists r,
    (consolidateMemories (outside := lab) false "semantic_to_canonical" (VNum 5)
       (empty_at 1000)).1 = Ok r /\
    Report.episodic_to_semantic r = Phase.make [] 0.
Proof.
  destruct (consolidateMemories (outside := lab) false "semantic_to_canonical" (VNum 5)
              (empty_at 1000)).1 as [r | e] eqn:H;
    [| revert H; vm_compute; discriminate].
  exists r. split; [reflexivity |].
  apply (proj2 (graduation_never_writes (outside := lab) false (VNum 5) (empty_at 1000))
           r H).
Defined.

Lemma unknown_promotion_type_does_nothing_witness :
  exists r,
    consolidateMemories (outside := lab) false "all" (VNum 5) one_episodic
      = (Ok r, one_episodic) /\
    Report.episodic_to_semantic r = Phase.make [] 0.
Proof.
  destruct (unknown_promotion_type_does_nothing (outside := lab) false "all" (VNum 5)
              one_episodic ltac:(discriminate) ltac:(discriminate) ltac:(discriminate))
    as (r & H1 & H2 & _).
  exists r. split; [exact H1 | exact H2].
Defined.

Lemma dry_run_unless_false_witness :
  no_write one_episodic
    (CallTool (outside := lab)
       (consolidate_memories
          (ConsolidateArgs.make (Some (VStr "false")) (Some "both") (Some (VNum 5))))
       one_episodic).2.
Proof.
  apply (proj1 (dry_run_unless_false (outside := lab)
                  (ConsolidateArgs.make (Some (VStr "false")) (Some "both")
                     (Some (VNum 5)))
                  one_episodic ltac:(discriminate))).
Defined.

Lemma promotion_writes_copy_witness :
  exists acc' w' e,
    promote (outside := lab) false (VNum 5) shown_pattern (Phase.make [] 0)
      (empty_at 2000) = (Ok acc', w') /\
    store w' !! "pattern:semantic:solution:96354" = Some e /\
    Hash.metadata (fields e) !! "last_validated" = Some (VDate 2000).
Proof.
  destruct (promote (outside := lab) false (VNum 5) shown_pattern (Phase.make [] 0)
              (empty_at 2000)) as [[acc' | x] w'] eqn:H;
    [| revert H; vm_compute; discriminate].
  destruct (promotion_writes_copy (outside := lab) (VNum 5) shown_pattern
              (Phase.make [] 0) acc' (empty_at 2000) w'
              ltac:(vm_compute; reflexivity) H)
    as (e & He & _ & _ & _ & _ & _ & _ & _ & _ & Hlv & _).
  exists acc', w', e. split; [reflexivity |]. split; [exact He | exact Hlv].
Defined.

Lemma canonical_threshold_witness :
  exists r,
    (consolidateMemories (outside := lab) true "semantic_to_canonical" (VNum 5)
       one_episodic_consolidation.2).1 = Ok r /\
    Phase.candidates (Report.semantic_to_canonical r)
      = map canonical_candidate
          (List.filter (fun p => Qle_bool 20 (evidence p) &&
                                 Qle_bool (95 # 100) (confidence_of p))
             (SearchResult.results promoted_found)) /\
    length (Phase.candidates (Report.semantic_to_canonical r)) = 1%nat.
Proof.
  destruct (consolidateMemories (outside := lab) true "semantic_to_canonical" (VNum 5)
              one_episodic_consolidation.2).1 as [r | e] eqn:H;
    [| revert H; vm_compute; discriminate].
  destruct (canonical_threshold (outside := lab) true (VNum 5)
              one_episodic_consolidation.2 promoted_found r
              ltac:(rewrite promoted_enumeration_run; reflexivity)
              ltac:(vm_compute; repeat constructor)
              H) as (Hc & _ & _).
  exists r. split; [reflexivity |]. split; [exact Hc |].
  rewrite Hc. vm_compute. reflexivity.
Defined.

Lemma candidate_previews_witness :
  exists c e,
    In c (Phase.candidates (Report.episodic_to_semantic one_episodic_report)) /\
    store one_episodic !! Candidate.pattern_id c = Some e /\
    Candidate.content c = substring 0 100 (Hash.content (fields e)) ++ "...".
Proof.
  destruct (Phase.candidates (Report.episodic_to_semantic one_episodic_report))
    as [| c l] eqn:E; [revert E; vm_compute; discriminate |].
  destruct (proj1 (candidate_previews (outside := lab) false "both" (VNum 5) one_episodic
                     one_episodic_consolidation.2 one_episodic_report
                     lab_index_selects one_episodic_consolidation_run) c)
    as (e & He & _ & Hc & _).
  - rewrite E. left. reflexivity.
  - exists c, e. split; [left; reflexivity |]. split; [exact He | exact Hc].
Defined.

Lemma four_reminders_known :
  map_Forall (fun _ x => known_priority x) (reminder_hash four_reminders "reminder:review").
Proof.
  apply map_Forall_to_list. vm_compute.
  repeat (constructor;
          [first [left; reflexivity | right; left; reflexivity | right; right; reflexivity] |]).
  constructor.
Defined.

(** The store lists the four reminders as d, b, c, a when it lists in key
    order, and as a, c, b, d in the reverse order: the two info reminders
    come out in the order of the listing. *)
Lemma check_reminders_sorted_witness :
  map Reminder.content
    (Reminders.reminders (checkReminders (order := key_order) "review" four_reminders))
  = ["c"; "a"; "d"; "b"] /\
  map Reminder.content
    (Reminders.reminders (checkReminders (order := reverse_key_order) "review" four_reminders))
  = ["c"; "a"; "b"; "d"].
Proof.
  split.
  - rewrite (proj2 (proj2 (proj2 (proj2
               (check_reminders_sorted (order := key_order) "review" four_reminders))))
               four_reminders_known).
    vm_compute. reflexivity.
  - rewrite (proj2 (proj2 (proj2 (proj2
               (check_reminders_sorted (order := reverse_key_order) "review"
                  four_reminders))))
               four_reminders_known).
    vm_compute. reflexivity.
Defined.

Lemma health_status_witness :
  exists h,
    healthCheck (outside := lab) (infra := no_index) (empty_at 1000)
      = (Ok h, asked "test" (empty_at 1000)) /\
    Health.status h = "healthy" /\
    Checks.vector_index (Health.checks h) = "missing".
Proof.
  destruct (health_status (outside := lab) (infra := no_index) (empty_at 1000))
    as (h & Hrun & _ & Hiff & Hindex).
  exists h. split; [exact Hrun |]. split; [| exact Hindex].
  apply Hiff. split; [reflexivity | eexists; reflexivity].
Defined.
